(** * foodpl.jsx: the pre-visit estimation calculator, embedded in Rocq

    The component [RestaurantPrevisitCalculator] of [src/foodpl.jsx] is
    modelled here together with the helpers it calls.

    - A JavaScript [number] is an IEEE 754 binary64 value: Rocq's primitive
      [float], whose arithmetic is the processor's.  Decimal literals are
      rounded to the nearest double exactly as the JavaScript parser does.
    - A JavaScript [string] is a sequence of UTF-16 code units: [list N].
      The literals of the source are written in UTF-8 below and decoded by
      [utf16].
    - The [useState] cells of the component form the record [State]; the
      [useMemo] values are functions of it; each [React.useEffect] is a
      function from the rendered state to the queued updates, run by
      [runEffects] when one of its dependencies changed.

    The definitions come first, in the order of the source.  They are
    followed by the facts about binary64 arithmetic the proofs need, derived
    from the specification of the primitive floats (comparisons; rounding
    keeps bounded numbers finite; rounding is exact on integers), by the
    facts about strings and about the effects, and by the claims C1 to C10
    of the specification, each with the theorem that settles it. *)

From Stdlib Require Import Floats ZArith NArith List Bool String Ascii Lia.
From Stdlib Require Uint63.
Import ListNotations.

Set Warnings "-inexact-float".
Local Open Scope string_scope.
Local Open Scope list_scope.
Local Open Scope float_scope.

(* ================================================================= *)
(** ** JavaScript numbers *)

(** [Math.max] and [Math.min] on two arguments: NaN is contagious and
    [+0] is larger than [-0]. *)
Definition Math_max (x y : float) : float :=
  if is_nan x || is_nan y then nan
  else if x <? y then y
  else if y <? x then x
  else if get_sign x then y else x.

Definition Math_min (x y : float) : float :=
  if is_nan x || is_nan y then nan
  else if x <? y then x
  else if y <? x then y
  else if get_sign x then x else y.

(** [const clamp = (n, min, max) => Math.min(max, Math.max(min, n))] *)
Definition clamp (n min max : float) : float :=
  Math_min max (Math_max min n).

Definition Number_isFinite (x : float) : bool := is_finite x.

(** [function safeDiv(a, b)] *)
Definition safeDiv (a b : float) : float :=
  if negb (Number_isFinite a) || negb (Number_isFinite b) || (b =? 0)
  then 0
  else a / b.

(** [Object.is] on numbers, the comparison React applies to dependencies:
    NaN is NaN, and the two zeros differ. *)
Definition Object_is (x y : float) : bool :=
  if is_nan x then is_nan y
  else (x =? y) && Bool.eqb (get_sign x) (get_sign y).

(* ================================================================= *)
(** ** JavaScript strings *)

Definition jsstring := list N.

(** Reads a UTF-8 literal as UTF-16 code units. *)
Fixpoint utf16_of_bytes (l : list N) : jsstring :=
  match l with
  | [] => []
  | b0 :: r =>
      if (b0 <? 128)%N then b0 :: utf16_of_bytes r
      else if (b0 <? 224)%N then
        match r with
        | b1 :: r1 => ((b0 mod 32) * 64 + b1 mod 64)%N :: utf16_of_bytes r1
        | _ => []
        end
      else if (b0 <? 240)%N then
        match r with
        | b1 :: b2 :: r2 =>
            ((b0 mod 16) * 4096 + (b1 mod 64) * 64 + b2 mod 64)%N
              :: utf16_of_bytes r2
        | _ => []
        end
      else
        match r with
        | b1 :: b2 :: b3 :: r3 =>
            let cp := ((b0 mod 8) * 262144 + (b1 mod 64) * 4096
                       + (b2 mod 64) * 64 + b3 mod 64 - 65536)%N in
            (55296 + cp / 1024)%N :: (56320 + cp mod 1024)%N
              :: utf16_of_bytes r3
        | _ => []
        end
  end.

Definition utf16 (s : string) : jsstring :=
  utf16_of_bytes (map N_of_ascii (list_ascii_of_string s)).

(** WhiteSpace and LineTerminator code units, the ones [trim] strips. *)
Definition isWhiteSpace (c : N) : bool :=
  ((c =? 9) || (c =? 10) || (c =? 11) || (c =? 12) || (c =? 13)
   || (c =? 32) || (c =? 160) || (c =? 5760)
   || ((8192 <=? c) && (c <=? 8202))
   || (c =? 8232) || (c =? 8233) || (c =? 8239) || (c =? 8287)
   || (c =? 12288) || (c =? 65279))%N.

Fixpoint trimStart (s : jsstring) : jsstring :=
  match s with
  | [] => []
  | c :: r => if isWhiteSpace c then trimStart r else s
  end.

Definition trimEnd (s : jsstring) : jsstring := rev (trimStart (rev s)).

Definition trim (s : jsstring) : jsstring := trimEnd (trimStart s).

Fixpoint startsWith (p s : jsstring) : bool :=
  match p, s with
  | [], _ => true
  | _ :: _, [] => false
  | x :: p', y :: s' => (x =? y)%N && startsWith p' s'
  end.

(** Does [p] occur in [s] at some position. *)
Fixpoint includes (p s : jsstring) : bool :=
  startsWith p s ||
  match s with
  | [] => false
  | _ :: s' => includes p s'
  end.

(** The regular expressions of the source are literals and alternations of
    literals, with no flags: a [RegExp] is the list of its alternatives and
    [re.test(a)] holds when one of them occurs in [a]. *)
Definition RegExp := list jsstring.

Definition RegExp_test (re : RegExp) (a : jsstring) : bool :=
  existsb (fun alt => includes alt a) re.

Definition re (alts : list string) : RegExp := map utf16 alts.

(* ================================================================= *)
(** ** Presets *)

Inductive IndustryKey :=
  izakaya | yakiniku | cafe | ramen | restaurant | takeout.

Inductive ScenarioKey := low | standard | high.

Record Rates := { food : float; labor : float; rent : float }.

(** [INDUSTRY_PRESETS[industry].scenarios[scenario]] *)
Definition INDUSTRY_PRESETS (i : IndustryKey) (sc : ScenarioKey) : Rates :=
  match i, sc with
  | izakaya, low => {| food := 0.28; labor := 0.26; rent := 0.09 |}
  | izakaya, standard => {| food := 0.30; labor := 0.30; rent := 0.10 |}
  | izakaya, high => {| food := 0.33; labor := 0.34; rent := 0.12 |}
  | yakiniku, low => {| food := 0.34; labor := 0.24; rent := 0.09 |}
  | yakiniku, standard => {| food := 0.38; labor := 0.28; rent := 0.10 |}
  | yakiniku, high => {| food := 0.42; labor := 0.32; rent := 0.12 |}
  | cafe, low => {| food := 0.24; labor := 0.28; rent := 0.10 |}
  | cafe, standard => {| food := 0.28; labor := 0.32; rent := 0.12 |}
  | cafe, high => {| food := 0.32; labor := 0.36; rent := 0.14 |}
  | ramen, low => {| food := 0.26; labor := 0.22; rent := 0.08 |}
  | ramen, standard => {| food := 0.30; labor := 0.25; rent := 0.10 |}
  | ramen, high => {| food := 0.34; labor := 0.28; rent := 0.12 |}
  | restaurant, low => {| food := 0.28; labor := 0.26; rent := 0.09 |}
  | restaurant, standard => {| food := 0.32; labor := 0.30; rent := 0.10 |}
  | restaurant, high => {| food := 0.36; labor := 0.34; rent := 0.12 |}
  | takeout, low => {| food := 0.32; labor := 0.18; rent := 0.06 |}
  | takeout, standard => {| food := 0.35; labor := 0.20; rent := 0.08 |}
  | takeout, high => {| food := 0.38; labor := 0.24; rent := 0.10 |}
  end.

Inductive UnitType := per_person | per_group.

(* ================================================================= *)
(** ** Area / rent master *)

Inductive AreaKey :=
  | tokyo_core | tokyo_suburb | osaka_core | osaka_suburb
  | nagoya_core | kyoto_core | regional_city | rural.

Record AreaMaster := {
  key : AreaKey;
  label : string;
  baseRentPerTsubo : float;
  patterns : list RegExp
}.

(** The first row of the table, which [getArea] falls back to. *)
Definition AREA_MASTER_0 : AreaMaster :=
  {| key := tokyo_core;
     label := "東京 都心（都心部・23区中心）";
     baseRentPerTsubo := 35000;
     patterns :=
       [ re ["東京都"];
         re ["渋谷"; "新宿"; "港区"; "中央区"; "千代田区"; "品川"; "池袋";
             "恵比寿"; "六本木"; "銀座"] ] |}.

Definition AREA_MASTER : list AreaMaster :=
  [ AREA_MASTER_0;
    {| key := tokyo_suburb;
       label := "東京 近郊（23区外・近郊）";
       baseRentPerTsubo := 25000;
       patterns :=
         [ re ["東京都"];
           re ["立川"; "町田"; "八王子"; "府中"; "調布"; "武蔵"; "多摩"] ] |};
    {| key := osaka_core;
       label := "大阪 都心（梅田/難波/心斎橋など）";
       baseRentPerTsubo := 28000;
       patterns :=
         [ re ["大阪府"];
           re ["北区"; "中央区"; "西区"; "天王寺"; "難波"; "梅田"; "心斎橋";
               "本町"] ] |};
    {| key := osaka_suburb;
       label := "大阪 近郊（大阪市外・北摂・東大阪など）";
       baseRentPerTsubo := 20000;
       patterns :=
         [ re ["大阪府"];
           re ["吹田"; "豊中"; "東大阪"; "堺"; "枚方"; "高槻"; "守口";
               "八尾"] ] |};
    {| key := kyoto_core;
       label := "京都 中心（四条/河原町/烏丸など）";
       baseRentPerTsubo := 24000;
       patterns :=
         [ re ["京都府"];
           re ["中京区"; "下京区"; "四条"; "河原町"; "烏丸"; "祇園"] ] |};
    {| key := nagoya_core;
       label := "名古屋 中心（栄/名駅など）";
       baseRentPerTsubo := 22000;
       patterns := [ re ["愛知県"]; re ["名古屋"; "栄"; "名駅"; "中区"] ] |};
    {| key := regional_city;
       label := "地方都市（駅前・中心街）";
       baseRentPerTsubo := 15000;
       patterns :=
         [ re ["奈良県"; "兵庫県"; "滋賀県"; "和歌山県"; "福岡県"; "広島県";
               "宮城県"; "北海道"] ] |};
    {| key := rural;
       label := "郊外・地方（ロードサイド/住宅地寄り）";
       baseRentPerTsubo := 9000;
       patterns := [ re ["郡"; "町"; "村"] ] |} ].

Inductive StationDistanceKey :=
  walk_1_3 | walk_4_7 | walk_8_12 | walk_13_plus | unknown.

(** [STATION_DISTANCE[k].factor] *)
Definition STATION_DISTANCE (k : StationDistanceKey) : float :=
  match k with
  | walk_1_3 => 1.15
  | walk_4_7 => 1.0
  | walk_8_12 => 0.9
  | walk_13_plus => 0.8
  | unknown => 1.0
  end.

Inductive TradeAreaKey :=
  downtown | station_front | office | residential | roadside | tourism.

(** [TRADE_AREA[k].factor] *)
Definition TRADE_AREA (k : TradeAreaKey) : float :=
  match k with
  | downtown => 1.2
  | station_front => 1.1
  | office => 1.1
  | residential => 0.95
  | roadside => 0.9
  | tourism => 1.25
  end.

(** The [for (const area of ...)] loop of [detectAreaFromAddress], over any
    table: the first tier one of whose patterns matches. *)
Fixpoint scanAreas (tiers : list AreaMaster) (a : jsstring) : option AreaKey :=
  match tiers with
  | [] => None
  | area :: rest =>
      if existsb (fun r => RegExp_test r a) (patterns area)
      then Some (key area)
      else scanAreas rest a
  end.

Definition detectAreaIn (tiers : list AreaMaster) (address : jsstring)
  : option AreaKey :=
  let a := trim address in
  match a with
  | [] => None
  | _ :: _ => scanAreas tiers a
  end.

(** [function detectAreaFromAddress(address)] *)
Definition detectAreaFromAddress (address : jsstring) : option AreaKey :=
  detectAreaIn AREA_MASTER address.

Definition AreaKey_eqb (x y : AreaKey) : bool :=
  match x, y with
  | tokyo_core, tokyo_core | tokyo_suburb, tokyo_suburb
  | osaka_core, osaka_core | osaka_suburb, osaka_suburb
  | nagoya_core, nagoya_core | kyoto_core, kyoto_core
  | regional_city, regional_city | rural, rural => true
  | _, _ => false
  end.

(** [function getArea(key)] *)
Definition getArea (k : AreaKey) : AreaMaster :=
  match find (fun x => AreaKey_eqb (key x) k) AREA_MASTER with
  | Some x => x
  | None => AREA_MASTER_0
  end.

(* ================================================================= *)
(** ** The component's state *)

(** One field per [useState] cell of [RestaurantPrevisitCalculator]. *)
Record State := {
  address : jsstring;
  industry : IndustryKey;
  scenario : ScenarioKey;
  unitType : UnitType;
  unitPrice : float;
  peoplePerGroup : float;
  addGroupsPerDay : float;
  seats : float;
  adSpend : float;
  daysPerMonth : float;
  useBaseline : bool;
  turnover : float;
  occupancy : float;
  autoDetectArea : bool;
  area : AreaKey;
  stationDistance : StationDistanceKey;
  tradeArea : TradeAreaKey;
  seatsPerTsubo : float;
  autoSetRentRate : bool;
  manualRates : bool;
  foodRate : float;
  laborRate : float;
  rentRate : float
}.

(** The initial values passed to [useState]. *)
Definition initialState : State :=
  let presetRates := INDUSTRY_PRESETS izakaya standard in
  {| address := [];
     industry := izakaya;
     scenario := standard;
     unitType := per_person;
     unitPrice := 6000;
     peoplePerGroup := 2;
     addGroupsPerDay := 1;
     seats := 30;
     adSpend := 100000;
     daysPerMonth := 26;
     useBaseline := true;
     turnover := 2.0;
     occupancy := 0.65;
     autoDetectArea := true;
     area := regional_city;
     stationDistance := walk_4_7;
     tradeArea := station_front;
     seatsPerTsubo := 2.0;
     autoSetRentRate := true;
     manualRates := false;
     foodRate := food presetRates;
     laborRate := labor presetRates;
     rentRate := rent presetRates |}.

(** The state setters the effects and the scenarios below call. *)
Definition setArea (v : AreaKey) (s : State) : State :=
  {| address := address s; industry := industry s; scenario := scenario s;
     unitType := unitType s; unitPrice := unitPrice s;
     peoplePerGroup := peoplePerGroup s;
     addGroupsPerDay := addGroupsPerDay s; seats := seats s;
     adSpend := adSpend s; daysPerMonth := daysPerMonth s;
     useBaseline := useBaseline s; turnover := turnover s;
     occupancy := occupancy s; autoDetectArea := autoDetectArea s;
     area := v; stationDistance := stationDistance s;
     tradeArea := tradeArea s; seatsPerTsubo := seatsPerTsubo s;
     autoSetRentRate := autoSetRentRate s; manualRates := manualRates s;
     foodRate := foodRate s; laborRate := laborRate s;
     rentRate := rentRate s |}.

Definition setFoodRate (v : float) (s : State) : State :=
  {| address := address s; industry := industry s; scenario := scenario s;
     unitType := unitType s; unitPrice := unitPrice s;
     peoplePerGroup := peoplePerGroup s;
     addGroupsPerDay := addGroupsPerDay s; seats := seats s;
     adSpend := adSpend s; daysPerMonth := daysPerMonth s;
     useBaseline := useBaseline s; turnover := turnover s;
     occupancy := occupancy s; autoDetectArea := autoDetectArea s;
     area := area s; stationDistance := stationDistance s;
     tradeArea := tradeArea s; seatsPerTsubo := seatsPerTsubo s;
     autoSetRentRate := autoSetRentRate s; manualRates := manualRates s;
     foodRate := v; laborRate := laborRate s;
     rentRate := rentRate s |}.

Definition setLaborRate (v : float) (s : State) : State :=
  {| address := address s; industry := industry s; scenario := scenario s;
     unitType := unitType s; unitPrice := unitPrice s;
     peoplePerGroup := peoplePerGroup s;
     addGroupsPerDay := addGroupsPerDay s; seats := seats s;
     adSpend := adSpend s; daysPerMonth := daysPerMonth s;
     useBaseline := useBaseline s; turnover := turnover s;
     occupancy := occupancy s; autoDetectArea := autoDetectArea s;
     area := area s; stationDistance := stationDistance s;
     tradeArea := tradeArea s; seatsPerTsubo := seatsPerTsubo s;
     autoSetRentRate := autoSetRentRate s; manualRates := manualRates s;
     foodRate := foodRate s; laborRate := v;
     rentRate := rentRate s |}.

Definition setRentRate (v : float) (s : State) : State :=
  {| address := address s; industry := industry s; scenario := scenario s;
     unitType := unitType s; unitPrice := unitPrice s;
     peoplePerGroup := peoplePerGroup s;
     addGroupsPerDay := addGroupsPerDay s; seats := seats s;
     adSpend := adSpend s; daysPerMonth := daysPerMonth s;
     useBaseline := useBaseline s; turnover := turnover s;
     occupancy := occupancy s; autoDetectArea := autoDetectArea s;
     area := area s; stationDistance := stationDistance s;
     tradeArea := tradeArea s; seatsPerTsubo := seatsPerTsubo s;
     autoSetRentRate := autoSetRentRate s; manualRates := manualRates s;
     foodRate := foodRate s; laborRate := laborRate s;
     rentRate := v |}.

Definition setManualRates (v : bool) (s : State) : State :=
  {| address := address s; industry := industry s; scenario := scenario s;
     unitType := unitType s; unitPrice := unitPrice s;
     peoplePerGroup := peoplePerGroup s;
     addGroupsPerDay := addGroupsPerDay s; seats := seats s;
     adSpend := adSpend s; daysPerMonth := daysPerMonth s;
     useBaseline := useBaseline s; turnover := turnover s;
     occupancy := occupancy s; autoDetectArea := autoDetectArea s;
     area := area s; stationDistance := stationDistance s;
     tradeArea := tradeArea s; seatsPerTsubo := seatsPerTsubo s;
     autoSetRentRate := autoSetRentRate s; manualRates := v;
     foodRate := foodRate s; laborRate := laborRate s;
     rentRate := rentRate s |}.

Definition setAutoSetRentRate (v : bool) (s : State) : State :=
  {| address := address s; industry := industry s; scenario := scenario s;
     unitType := unitType s; unitPrice := unitPrice s;
     peoplePerGroup := peoplePerGroup s;
     addGroupsPerDay := addGroupsPerDay s; seats := seats s;
     adSpend := adSpend s; daysPerMonth := daysPerMonth s;
     useBaseline := useBaseline s; turnover := turnover s;
     occupancy := occupancy s; autoDetectArea := autoDetectArea s;
     area := area s; stationDistance := stationDistance s;
     tradeArea := tradeArea s; seatsPerTsubo := seatsPerTsubo s;
     autoSetRentRate := v; manualRates := manualRates s;
     foodRate := foodRate s; laborRate := laborRate s;
     rentRate := rentRate s |}.

Definition setIndustry (v : IndustryKey) (s : State) : State :=
  {| address := address s; industry := v; scenario := scenario s;
     unitType := unitType s; unitPrice := unitPrice s;
     peoplePerGroup := peoplePerGroup s;
     addGroupsPerDay := addGroupsPerDay s; seats := seats s;
     adSpend := adSpend s; daysPerMonth := daysPerMonth s;
     useBaseline := useBaseline s; turnover := turnover s;
     occupancy := occupancy s; autoDetectArea := autoDetectArea s;
     area := area s; stationDistance := stationDistance s;
     tradeArea := tradeArea s; seatsPerTsubo := seatsPerTsubo s;
     autoSetRentRate := autoSetRentRate s; manualRates := manualRates s;
     foodRate := foodRate s; laborRate := laborRate s;
     rentRate := rentRate s |}.

Definition setScenario (v : ScenarioKey) (s : State) : State :=
  {| address := address s; industry := industry s; scenario := v;
     unitType := unitType s; unitPrice := unitPrice s;
     peoplePerGroup := peoplePerGroup s;
     addGroupsPerDay := addGroupsPerDay s; seats := seats s;
     adSpend := adSpend s; daysPerMonth := daysPerMonth s;
     useBaseline := useBaseline s; turnover := turnover s;
     occupancy := occupancy s; autoDetectArea := autoDetectArea s;
     area := area s; stationDistance := stationDistance s;
     tradeArea := tradeArea s; seatsPerTsubo := seatsPerTsubo s;
     autoSetRentRate := autoSetRentRate s; manualRates := manualRates s;
     foodRate := foodRate s; laborRate := laborRate s;
     rentRate := rentRate s |}.

Definition setUseBaseline (v : bool) (s : State) : State :=
  {| address := address s; industry := industry s; scenario := scenario s;
     unitType := unitType s; unitPrice := unitPrice s;
     peoplePerGroup := peoplePerGroup s;
     addGroupsPerDay := addGroupsPerDay s; seats := seats s;
     adSpend := adSpend s; daysPerMonth := daysPerMonth s;
     useBaseline := v; turnover := turnover s;
     occupancy := occupancy s; autoDetectArea := autoDetectArea s;
     area := area s; stationDistance := stationDistance s;
     tradeArea := tradeArea s; seatsPerTsubo := seatsPerTsubo s;
     autoSetRentRate := autoSetRentRate s; manualRates := manualRates s;
     foodRate := foodRate s; laborRate := laborRate s;
     rentRate := rentRate s |}.

Definition setTurnover (v : float) (s : State) : State :=
  {| address := address s; industry := industry s; scenario := scenario s;
     unitType := unitType s; unitPrice := unitPrice s;
     peoplePerGroup := peoplePerGroup s;
     addGroupsPerDay := addGroupsPerDay s; seats := seats s;
     adSpend := adSpend s; daysPerMonth := daysPerMonth s;
     useBaseline := useBaseline s; turnover := v;
     occupancy := occupancy s; autoDetectArea := autoDetectArea s;
     area := area s; stationDistance := stationDistance s;
     tradeArea := tradeArea s; seatsPerTsubo := seatsPerTsubo s;
     autoSetRentRate := autoSetRentRate s; manualRates := manualRates s;
     foodRate := foodRate s; laborRate := laborRate s;
     rentRate := rentRate s |}.

Definition setOccupancy (v : float) (s : State) : State :=
  {| address := address s; industry := industry s; scenario := scenario s;
     unitType := unitType s; unitPrice := unitPrice s;
     peoplePerGroup := peoplePerGroup s;
     addGroupsPerDay := addGroupsPerDay s; seats := seats s;
     adSpend := adSpend s; daysPerMonth := daysPerMonth s;
     useBaseline := useBaseline s; turnover := turnover s;
     occupancy := v; autoDetectArea := autoDetectArea s;
     area := area s; stationDistance := stationDistance s;
     tradeArea := tradeArea s; seatsPerTsubo := seatsPerTsubo s;
     autoSetRentRate := autoSetRentRate s; manualRates := manualRates s;
     foodRate := foodRate s; laborRate := laborRate s;
     rentRate := rentRate s |}.

Definition setUnitType (v : UnitType) (s : State) : State :=
  {| address := address s; industry := industry s; scenario := scenario s;
     unitType := v; unitPrice := unitPrice s;
     peoplePerGroup := peoplePerGroup s;
     addGroupsPerDay := addGroupsPerDay s; seats := seats s;
     adSpend := adSpend s; daysPerMonth := daysPerMonth s;
     useBaseline := useBaseline s; turnover := turnover s;
     occupancy := occupancy s; autoDetectArea := autoDetectArea s;
     area := area s; stationDistance := stationDistance s;
     tradeArea := tradeArea s; seatsPerTsubo := seatsPerTsubo s;
     autoSetRentRate := autoSetRentRate s; manualRates := manualRates s;
     foodRate := foodRate s; laborRate := laborRate s;
     rentRate := rentRate s |}.

Definition setUnitPrice (v : float) (s : State) : State :=
  {| address := address s; industry := industry s; scenario := scenario s;
     unitType := unitType s; unitPrice := v;
     peoplePerGroup := peoplePerGroup s;
     addGroupsPerDay := addGroupsPerDay s; seats := seats s;
     adSpend := adSpend s; daysPerMonth := daysPerMonth s;
     useBaseline := useBaseline s; turnover := turnover s;
     occupancy := occupancy s; autoDetectArea := autoDetectArea s;
     area := area s; stationDistance := stationDistance s;
     tradeArea := tradeArea s; seatsPerTsubo := seatsPerTsubo s;
     autoSetRentRate := autoSetRentRate s; manualRates := manualRates s;
     foodRate := foodRate s; laborRate := laborRate s;
     rentRate := rentRate s |}.

Definition setPeoplePerGroup (v : float) (s : State) : State :=
  {| address := address s; industry := industry s; scenario := scenario s;
     unitType := unitType s; unitPrice := unitPrice s;
     peoplePerGroup := v;
     addGroupsPerDay := addGroupsPerDay s; seats := seats s;
     adSpend := adSpend s; daysPerMonth := daysPerMonth s;
     useBaseline := useBaseline s; turnover := turnover s;
     occupancy := occupancy s; autoDetectArea := autoDetectArea s;
     area := area s; stationDistance := stationDistance s;
     tradeArea := tradeArea s; seatsPerTsubo := seatsPerTsubo s;
     autoSetRentRate := autoSetRentRate s; manualRates := manualRates s;
     foodRate := foodRate s; laborRate := laborRate s;
     rentRate := rentRate s |}.

Definition setAddGroupsPerDay (v : float) (s : State) : State :=
  {| address := address s; industry := industry s; scenario := scenario s;
     unitType := unitType s; unitPrice := unitPrice s;
     peoplePerGroup := peoplePerGroup s;
     addGroupsPerDay := v; seats := seats s;
     adSpend := adSpend s; daysPerMonth := daysPerMonth s;
     useBaseline := useBaseline s; turnover := turnover s;
     occupancy := occupancy s; autoDetectArea := autoDetectArea s;
     area := area s; stationDistance := stationDistance s;
     tradeArea := tradeArea s; seatsPerTsubo := seatsPerTsubo s;
     autoSetRentRate := autoSetRentRate s; manualRates := manualRates s;
     foodRate := foodRate s; laborRate := laborRate s;
     rentRate := rentRate s |}.

Definition setDaysPerMonth (v : float) (s : State) : State :=
  {| address := address s; industry := industry s; scenario := scenario s;
     unitType := unitType s; unitPrice := unitPrice s;
     peoplePerGroup := peoplePerGroup s;
     addGroupsPerDay := addGroupsPerDay s; seats := seats s;
     adSpend := adSpend s; daysPerMonth := v;
     useBaseline := useBaseline s; turnover := turnover s;
     occupancy := occupancy s; autoDetectArea := autoDetectArea s;
     area := area s; stationDistance := stationDistance s;
     tradeArea := tradeArea s; seatsPerTsubo := seatsPerTsubo s;
     autoSetRentRate := autoSetRentRate s; manualRates := manualRates s;
     foodRate := foodRate s; laborRate := laborRate s;
     rentRate := rentRate s |}.

(** The [onClick] handler of the reset button: every input cell goes back
    to its initial value; the handler does not touch the three rates. *)
Definition resetInputs (s : State) : State :=
  {| address := [];
     industry := izakaya;
     scenario := standard;
     unitType := per_person;
     unitPrice := 6000;
     peoplePerGroup := 2;
     addGroupsPerDay := 1;
     seats := 30;
     adSpend := 100000;
     daysPerMonth := 26;
     useBaseline := true;
     turnover := 2.0;
     occupancy := 0.65;
     autoDetectArea := true;
     area := regional_city;
     stationDistance := walk_4_7;
     tradeArea := station_front;
     seatsPerTsubo := 2.0;
     autoSetRentRate := true;
     manualRates := false;
     foodRate := foodRate s;
     laborRate := laborRate s;
     rentRate := rentRate s |}.

(** [const presetRates = INDUSTRY_PRESETS[industry].scenarios[scenario]] *)
Definition presetRates (s : State) : Rates :=
  INDUSTRY_PRESETS (industry s) (scenario s).

(* ================================================================= *)
(** ** The memoised values *)

Module Baseline.
Record t := {
  ppg : float;
  seatsN : float;
  days : float;
  pricePerPerson : float;
  coversPerDay : float;
  baselineRevenueDaily : float;
  baselineRevenueMonthly : float
}.
End Baseline.

(** The body of [const baseline = useMemo(...)], as a function of its
    dependency list. *)
Definition baseline_of (peoplePerGroup seats daysPerMonth : float)
    (unitType : UnitType) (unitPrice occupancy turnover : float)
  : Baseline.t :=
  let ppg := clamp peoplePerGroup 1 20 in
  let seatsN := clamp seats 0 500 in
  let days := clamp daysPerMonth 1 31 in
  let pricePerPerson :=
    match unitType with
    | per_person => unitPrice
    | per_group => safeDiv unitPrice ppg
    end in
  let coversPerDay := seatsN * occupancy * turnover in
  let baselineRevenueDaily := coversPerDay * pricePerPerson in
  let baselineRevenueMonthly := baselineRevenueDaily * days in
  {| Baseline.ppg := ppg;
     Baseline.seatsN := seatsN;
     Baseline.days := days;
     Baseline.pricePerPerson := pricePerPerson;
     Baseline.coversPerDay := coversPerDay;
     Baseline.baselineRevenueDaily := baselineRevenueDaily;
     Baseline.baselineRevenueMonthly := baselineRevenueMonthly |}.

Definition baseline (s : State) : Baseline.t :=
  baseline_of (peoplePerGroup s) (seats s) (daysPerMonth s) (unitType s)
    (unitPrice s) (occupancy s) (turnover s).

Module RentSuggestion.
Record t := {
  areaLabel : string;
  rentPerTsubo : float;
  tsubo : float;
  estimatedRentMonthly : float;
  rentRateSuggested : float;
  baselineSales : float
}.
End RentSuggestion.

(** The body of [const rentSuggestion = useMemo(...)], as a function of its
    dependency list. *)
Definition rentSuggestion_of (area : AreaKey)
    (stationDistance : StationDistanceKey) (tradeArea : TradeAreaKey)
    (seats seatsPerTsubo baselineRevenueMonthly : float)
  : RentSuggestion.t :=
  let a := getArea area in
  let seatsN := clamp seats 0 500 in
  let spt := clamp seatsPerTsubo 0.8 4.0 in
  let tsubo := safeDiv seatsN spt in
  let stationFactor := STATION_DISTANCE stationDistance in
  let tradeFactor := TRADE_AREA tradeArea in
  let rentPerTsubo := baseRentPerTsubo a * stationFactor * tradeFactor in
  let estimatedRentMonthly := tsubo * rentPerTsubo in
  let baselineSales := baselineRevenueMonthly in
  let rentRateSuggested :=
    if 0 <? baselineSales
    then clamp (estimatedRentMonthly / baselineSales) 0 0.35
    else 0 in
  {| RentSuggestion.areaLabel := label a;
     RentSuggestion.rentPerTsubo := rentPerTsubo;
     RentSuggestion.tsubo := tsubo;
     RentSuggestion.estimatedRentMonthly := estimatedRentMonthly;
     RentSuggestion.rentRateSuggested := rentRateSuggested;
     RentSuggestion.baselineSales := baselineSales |}.

Definition rentSuggestion (s : State) : RentSuggestion.t :=
  rentSuggestion_of (area s) (stationDistance s) (tradeArea s) (seats s)
    (seatsPerTsubo s) (Baseline.baselineRevenueMonthly (baseline s)).

Module Normalized.
Record t := {
  ppg : float;
  seatsN : float;
  addG : float;
  days : float;
  food : float;
  labor : float;
  rent : float;
  addRevenueDaily : float;
  addRevenueMonthly : float;
  addGrossProfit : float;
  addAfterFL : float;
  addAfterFLR : float;
  roas : float;
  gpRoas : float;
  breakevenGroupsPerDay_Gross : float;
  coversPerDay : float;
  baselineRevenueDaily : float;
  baselineRevenueMonthly : float;
  baselineFood : float;
  baselineLabor : float;
  baselineRent : float;
  baselineOperatingProfitApprox : float;
  fl : float;
  flr : float
}.
End Normalized.

(** The body of [const normalized = useMemo(...)], as a function of its
    dependency list. *)
Definition normalized_of (baseline : Baseline.t) (addGroupsPerDay : float)
    (unitType : UnitType)
    (unitPrice foodRate laborRate rentRate adSpend : float)
  : Normalized.t :=
  let ppg := Baseline.ppg baseline in
  let seatsN := Baseline.seatsN baseline in
  let addG := clamp addGroupsPerDay 0 200 in
  let days := Baseline.days baseline in
  let food := clamp foodRate 0 0.95 in
  let labor := clamp laborRate 0 0.95 in
  let rent := clamp rentRate 0 0.95 in
  let addRevenueDaily :=
    match unitType with
    | per_person => unitPrice * addG * ppg
    | per_group => unitPrice * addG
    end in
  let addRevenueMonthly := addRevenueDaily * days in
  let addGrossProfit := addRevenueMonthly * (1 - food) in
  let addAfterFL := addRevenueMonthly * (1 - food - labor) in
  let addAfterFLR := addRevenueMonthly * (1 - food - labor - rent) in
  let roas := safeDiv addRevenueMonthly adSpend in
  let gpRoas := safeDiv addGrossProfit adSpend in
  let gpPerGroup :=
    match unitType with
    | per_person => unitPrice * ppg * (1 - food)
    | per_group => unitPrice * (1 - food)
    end in
  let breakevenGroupsPerDay_Gross := safeDiv adSpend (gpPerGroup * days) in
  let baselineRevenueDaily := Baseline.baselineRevenueDaily baseline in
  let baselineRevenueMonthly := Baseline.baselineRevenueMonthly baseline in
  let baselineFood := baselineRevenueMonthly * food in
  let baselineLabor := baselineRevenueMonthly * labor in
  let baselineRent := baselineRevenueMonthly * rent in
  let baselineOperatingProfitApprox :=
    baselineRevenueMonthly - baselineFood - baselineLabor - baselineRent
    - adSpend in
  let fl := food + labor in
  let flr := food + labor + rent in
  {| Normalized.ppg := ppg;
     Normalized.seatsN := seatsN;
     Normalized.addG := addG;
     Normalized.days := days;
     Normalized.food := food;
     Normalized.labor := labor;
     Normalized.rent := rent;
     Normalized.addRevenueDaily := addRevenueDaily;
     Normalized.addRevenueMonthly := addRevenueMonthly;
     Normalized.addGrossProfit := addGrossProfit;
     Normalized.addAfterFL := addAfterFL;
     Normalized.addAfterFLR := addAfterFLR;
     Normalized.roas := roas;
     Normalized.gpRoas := gpRoas;
     Normalized.breakevenGroupsPerDay_Gross := breakevenGroupsPerDay_Gross;
     Normalized.coversPerDay := Baseline.coversPerDay baseline;
     Normalized.baselineRevenueDaily := baselineRevenueDaily;
     Normalized.baselineRevenueMonthly := baselineRevenueMonthly;
     Normalized.baselineFood := baselineFood;
     Normalized.baselineLabor := baselineLabor;
     Normalized.baselineRent := baselineRent;
     Normalized.baselineOperatingProfitApprox :=
       baselineOperatingProfitApprox;
     Normalized.fl := fl;
     Normalized.flr := flr |}.

Definition normalized (s : State) : Normalized.t :=
  normalized_of (baseline s) (addGroupsPerDay s) (unitType s) (unitPrice s)
    (foodRate s) (laborRate s) (rentRate s) (adSpend s).

(* ================================================================= *)
(** ** The effects *)

(** Each effect reads the state [s] of the render that scheduled it and
    queues its updates on [acc]; they are applied before the next render. *)

(** [React.useEffect(..., [address, autoDetectArea])] *)
Definition effectDetectArea (s acc : State) : State :=
  if negb (autoDetectArea s) then acc
  else
    match detectAreaFromAddress (address s) with
    | Some detected => setArea detected acc
    | None => acc
    end.

(** [React.useEffect(..., [industry, scenario])] *)
Definition effectSyncPreset (s acc : State) : State :=
  if negb (manualRates s) then
    let acc := setFoodRate (food (presetRates s)) acc in
    let acc := setLaborRate (labor (presetRates s)) acc in
    if autoSetRentRate s
       && (0 <? RentSuggestion.rentRateSuggested (rentSuggestion s))
    then setRentRate (RentSuggestion.rentRateSuggested (rentSuggestion s)) acc
    else setRentRate (rent (presetRates s)) acc
  else acc.

(** [React.useEffect(..., [autoSetRentRate, manualRates,
    rentSuggestion.rentRateSuggested])] *)
Definition effectAutoRent (s acc : State) : State :=
  if negb (autoSetRentRate s) then acc
  else if manualRates s then acc
  else if RentSuggestion.rentRateSuggested (rentSuggestion s) <=? 0 then acc
  else setRentRate (RentSuggestion.rentRateSuggested (rentSuggestion s)) acc.

Fixpoint jsstring_eqb (x y : jsstring) : bool :=
  match x, y with
  | [], [] => true
  | a :: x', b :: y' => (a =? b)%N && jsstring_eqb x' y'
  | _, _ => false
  end.

Definition IndustryKey_eqb (x y : IndustryKey) : bool :=
  match x, y with
  | izakaya, izakaya | yakiniku, yakiniku | cafe, cafe | ramen, ramen
  | restaurant, restaurant | takeout, takeout => true
  | _, _ => false
  end.

Definition ScenarioKey_eqb (x y : ScenarioKey) : bool :=
  match x, y with
  | low, low | standard, standard | high, high => true
  | _, _ => false
  end.

(** Did a dependency of the effect change since the previous render
    ([None]: this is the first render, every effect runs). *)
Definition changedDetectArea (prev : option State) (s : State) : bool :=
  match prev with
  | None => true
  | Some p =>
      negb (jsstring_eqb (address p) (address s)
            && Bool.eqb (autoDetectArea p) (autoDetectArea s))
  end.

Definition changedSyncPreset (prev : option State) (s : State) : bool :=
  match prev with
  | None => true
  | Some p =>
      negb (IndustryKey_eqb (industry p) (industry s)
            && ScenarioKey_eqb (scenario p) (scenario s))
  end.

Definition changedAutoRent (prev : option State) (s : State) : bool :=
  match prev with
  | None => true
  | Some p =>
      negb (Bool.eqb (autoSetRentRate p) (autoSetRentRate s)
            && Bool.eqb (manualRates p) (manualRates s)
            && Object_is
                 (RentSuggestion.rentRateSuggested (rentSuggestion p))
                 (RentSuggestion.rentRateSuggested (rentSuggestion s)))
  end.

(** After the render of [s] (the previous render was of [prev]) the effects
    whose dependencies changed run in declaration order; the result is the
    state of the next render. *)
Definition runEffects (prev : option State) (s : State) : State :=
  let acc := s in
  let acc := if changedDetectArea prev s then effectDetectArea s acc
             else acc in
  let acc := if changedSyncPreset prev s then effectSyncPreset s acc
             else acc in
  let acc := if changedAutoRent prev s then effectAutoRent s acc
             else acc in
  acc.

(** [n] rounds of render-and-effects. *)
Fixpoint settle (n : nat) (prev : option State) (s : State) : State :=
  match n with
  | O => s
  | S n' => settle n' (Some s) (runEffects prev s)
  end.

(** Two rounds always reach the state the component rests in (see
    [settle_stable]). *)
Definition mount (s : State) : State := settle 2 None s.

(** A user event [ev] on the resting state [s], then the effects. *)
Definition after (ev : State -> State) (s : State) : State :=
  settle 2 (Some s) (ev s).

(** What the component shows for the state [s]. *)
Definition effectiveRates (s : State) : Rates :=
  {| food := Normalized.food (normalized s);
     labor := Normalized.labor (normalized s);
     rent := Normalized.rent (normalized s) |}.

(* ================================================================= *)
(** ** Definitions used in the statements *)

(** The state [s] with another pricing: the inputs the incremental revenue
    depends on. *)
Definition withPricing (ut : UnitType) (price ppg addG days : float)
    (s : State) : State :=
  setUnitType ut (setUnitPrice price (setPeoplePerGroup ppg
    (setAddGroupsPerDay addG (setDaysPerMonth days s)))).

(** [area.patterns.some((re) => re.test(a))] *)
Definition tierMatches (t : AreaMaster) (a : jsstring) : bool :=
  existsb (fun r => RegExp_test r a) (patterns t).

(** The area resolver as section 4.2 of the specification words it: trim,
    give up on an empty address, otherwise the first tier of the ordered
    table one of whose rules matches. *)
Definition resolve_spec (orderedTiers : list AreaMaster) (address : jsstring)
  : option AreaKey :=
  match trim address with
  | [] => None
  | a => option_map key (find (fun t => tierMatches t a) orderedTiers)
  end.

Definition noWhiteSpace (p : jsstring) : bool :=
  forallb (fun c => negb (isWhiteSpace c)) p.

(** The prefecture name of the first pattern of the table. *)
Definition tokyo_to : jsstring := utf16 "東京都".

(** The double nearest to the integer [z] (exact below [2^53]). *)
Definition ofInt (z : Z) : float := of_uint63 (Uint63.of_Z z).

(** The integers [lo], [lo + 1], ..., [lo + n - 1]. *)
Definition zrange (lo : Z) (n : nat) : list Z :=
  map (fun i => (lo + Z.of_nat i)%Z) (seq 0 n).

(** A binary64 value that is finite, with an exponent of at most [E]. *)
Definition SFbounded (E : Z) (x : spec_float) : Prop :=
  match x with
  | S754_zero _ => True
  | S754_finite _ _ e => (e <= E)%Z
  | _ => False
  end.

(** The binary64 representation of the positive integer [z]: its bits,
    left-aligned in a 53-bit mantissa. *)
Definition IsInt (z : Z) (x : spec_float) : Prop :=
  exists m, x = S754_finite false m (Zdigits2 z - 53)%Z
            /\ Z.pos m = (z * 2 ^ (53 - Zdigits2 z))%Z.

(** The two states agree on the dependencies of the three effects. *)
Definition sameDeps (p s : State) : Prop :=
  address p = address s /\ autoDetectArea p = autoDetectArea s
  /\ industry p = industry s /\ scenario p = scenario s
  /\ autoSetRentRate p = autoSetRentRate s /\ manualRates p = manualRates s
  /\ RentSuggestion.rentRateSuggested (rentSuggestion p)
     = RentSuggestion.rentRateSuggested (rentSuggestion s).

(** The state with the cells the baseline estimate feeds blanked out:
    [occupancy], [turnover], and [rentRate], which the suggestion computed
    from them overwrites. *)
Definition offBaseline (s : State) : State :=
  setRentRate 0 (setTurnover 0 (setOccupancy 0 s)).

(** [runEffects] without its writes to [rentRate]. *)
Definition runEffectsOff (prev : option State) (s : State) : State :=
  let acc := s in
  let acc := if changedDetectArea prev s then effectDetectArea s acc
             else acc in
  let acc :=
    if changedSyncPreset prev s then
      if negb (manualRates s)
      then setLaborRate (labor (presetRates s))
             (setFoodRate (food (presetRates s)) acc)
      else acc
    else acc in
  acc.

(** ** Definitions used in the further properties *)

(** The setter of the address field (the [onChange] of the address input). *)
Definition setAddress (v : jsstring) (s : State) : State :=
  {| address := v; industry := industry s; scenario := scenario s;
     unitType := unitType s; unitPrice := unitPrice s;
     peoplePerGroup := peoplePerGroup s;
     addGroupsPerDay := addGroupsPerDay s; seats := seats s;
     adSpend := adSpend s; daysPerMonth := daysPerMonth s;
     useBaseline := useBaseline s; turnover := turnover s;
     occupancy := occupancy s; autoDetectArea := autoDetectArea s;
     area := area s; stationDistance := stationDistance s;
     tradeArea := tradeArea s; seatsPerTsubo := seatsPerTsubo s;
     autoSetRentRate := autoSetRentRate s; manualRates := manualRates s;
     foodRate := foodRate s; laborRate := laborRate s;
     rentRate := rentRate s |}.

(** [rentSuggestion.rentRateSuggested] of a render. *)
Definition suggested (s : State) : float :=
  RentSuggestion.rentRateSuggested (rentSuggestion s).

(** The rent rate follows the suggestion: with manual rates off, automatic
    rent on and a positive suggestion, the stored rent rate is the
    suggestion. *)
Definition rentInSync (s : State) : Prop :=
  manualRates s = false -> autoSetRentRate s = true ->
  (0 <? suggested s) = true -> rentRate s = suggested s.

(** The food and labor rates follow the preset: with manual rates off, the
    stored rates are those of the preset of the industry and scenario. *)
Definition presetInSync (s : State) : Prop :=
  manualRates s = false ->
  foodRate s = food (presetRates s) /\ laborRate s = labor (presetRates s).

(** A zero, or a finite number of positive sign. *)
Definition SFnonneg (x : spec_float) : Prop :=
  match x with
  | S754_zero _ => True
  | S754_finite false _ _ => True
  | _ => False
  end.


(** Strings of white space only. *)
Definition allWhiteSpace (w : jsstring) : bool := forallb isWhiteSpace w.

(* ================================================================= *)
(** * Facts about binary64 numbers *)

(** ** Comparisons, [Math.max], [Math.min] and [clamp] *)

(** Comparison facts on the specification side. *)
Lemma SFcompare_refl x : x <> S754_nan -> SFcompare x x = Some Eq.
Proof.
  destruct x as [s|s| |s m e]; simpl; try congruence; intros _.
  - destruct s; reflexivity.
  - rewrite Z.compare_refl, Pos.compare_cont_refl. destruct s; reflexivity.
Qed.

(** Swapping the operands mirrors the comparison. *)
Lemma SFcompare_antisym x y :
  SFcompare y x = option_map CompOpp (SFcompare x y).
Proof.
  destruct x as [s|s| |s m e], y as [s'|s'| |s' m' e']; simpl;
    try reflexivity; try (destruct s; reflexivity);
    try (destruct s'; reflexivity);
    try (destruct s, s'; reflexivity).
  assert (HP : Pos.compare_cont Eq m' m = CompOpp (Pos.compare_cont Eq m m')).
  { rewrite (Pos.compare_cont_antisym m m' Eq). reflexivity. }
  destruct s, s'; simpl; try reflexivity;
    rewrite (Z.compare_antisym e e'), HP;
    destruct (e ?= e')%Z; simpl; try reflexivity;
    rewrite ?CompOpp_involutive; reflexivity.
Qed.

(** [is_nan] recognises exactly the NaN of the specification. *)
Lemma is_nan_spec x : is_nan x = true <-> Prim2SF x = S754_nan.
Proof.
  unfold is_nan. rewrite FloatAxioms.eqb_spec. unfold SFeqb. split.
  - intros H. destruct (Prim2SF x) eqn:E; try reflexivity;
      rewrite SFcompare_refl in H by congruence; discriminate.
  - intros ->. reflexivity.
Qed.

Lemma is_nan_false x : is_nan x = false <-> Prim2SF x <> S754_nan.
Proof.
  rewrite <- is_nan_spec. destruct (is_nan x); split; congruence.
Qed.

(** The four orderings of two floats, read off one comparison. *)
Lemma ltb_SF x y :
  (x <? y) = match SFcompare (Prim2SF x) (Prim2SF y) with
             | Some Lt => true | _ => false end.
Proof. rewrite FloatAxioms.ltb_spec. reflexivity. Qed.

Lemma gtb_SF x y :
  (y <? x) = match SFcompare (Prim2SF x) (Prim2SF y) with
             | Some Gt => true | _ => false end.
Proof.
  rewrite FloatAxioms.ltb_spec. unfold SFltb.
  rewrite SFcompare_antisym.
  destruct (SFcompare (Prim2SF x) (Prim2SF y)) as [[]|]; reflexivity.
Qed.

Lemma leb_SF x y :
  (x <=? y) = match SFcompare (Prim2SF x) (Prim2SF y) with
              | Some (Lt | Eq) => true | _ => false end.
Proof. rewrite FloatAxioms.leb_spec. reflexivity. Qed.

Lemma geb_SF x y :
  (y <=? x) = match SFcompare (Prim2SF x) (Prim2SF y) with
              | Some (Gt | Eq) => true | _ => false end.
Proof.
  rewrite FloatAxioms.leb_spec. unfold SFleb.
  rewrite SFcompare_antisym.
  destruct (SFcompare (Prim2SF x) (Prim2SF y)) as [[]|]; reflexivity.
Qed.

(** Two numbers that are not NaN are comparable. *)
Lemma SFcompare_total x y :
  x <> S754_nan -> y <> S754_nan -> SFcompare x y <> None.
Proof.
  destruct x as [s|s| |s m e], y as [s'|s'| |s' m' e']; simpl; congruence.
Qed.

Lemma leb_refl x : is_nan x = false -> (x <=? x) = true.
Proof.
  intros H. apply is_nan_false in H. rewrite leb_SF, SFcompare_refl; auto.
Qed.

(** [Math.max] of two numbers is one of them and bounds both. *)
Lemma Math_max_spec x y :
  is_nan x = false -> is_nan y = false ->
  (Math_max x y = x \/ Math_max x y = y)
  /\ (x <=? Math_max x y) = true /\ (y <=? Math_max x y) = true.
Proof.
  intros Hx Hy. unfold Math_max. rewrite Hx, Hy. simpl.
  pose proof (leb_refl x Hx) as Rx. pose proof (leb_refl y Hy) as Ry.
  pose proof (SFcompare_total (Prim2SF x) (Prim2SF y)
                (proj1 (is_nan_false x) Hx) (proj1 (is_nan_false y) Hy)) as T.
  pose proof (ltb_SF x y) as L. pose proof (gtb_SF x y) as G.
  pose proof (leb_SF x y) as LE. pose proof (geb_SF x y) as GE.
  destruct (SFcompare (Prim2SF x) (Prim2SF y)) as [[]|]; try congruence;
    rewrite L, ?G; try destruct (get_sign x); auto.
Qed.

(** [Math.min] of two numbers is one of them and is bounded by both. *)
Lemma Math_min_spec x y :
  is_nan x = false -> is_nan y = false ->
  (Math_min x y = x \/ Math_min x y = y)
  /\ (Math_min x y <=? x) = true /\ (Math_min x y <=? y) = true.
Proof.
  intros Hx Hy. unfold Math_min. rewrite Hx, Hy. simpl.
  pose proof (leb_refl x Hx) as Rx. pose proof (leb_refl y Hy) as Ry.
  pose proof (SFcompare_total (Prim2SF x) (Prim2SF y)
                (proj1 (is_nan_false x) Hx) (proj1 (is_nan_false y) Hy)) as T.
  pose proof (ltb_SF x y) as L. pose proof (gtb_SF x y) as G.
  pose proof (leb_SF x y) as LE. pose proof (geb_SF x y) as GE.
  destruct (SFcompare (Prim2SF x) (Prim2SF y)) as [[]|]; try congruence;
    rewrite L, ?G; try destruct (get_sign x); auto.
Qed.

(** A number that is not NaN is clamped into the range. *)
Lemma clamp_bounds n lo hi :
  is_nan n = false -> is_nan lo = false -> is_nan hi = false ->
  (lo <=? hi) = true ->
  is_nan (clamp n lo hi) = false
  /\ (lo <=? clamp n lo hi) = true /\ (clamp n lo hi <=? hi) = true.
Proof.
  intros Hn Hlo Hhi Hle. unfold clamp.
  destruct (Math_max_spec lo n Hlo Hn) as (Hm & Hm1 & _).
  assert (Nm : is_nan (Math_max lo n) = false) by (destruct Hm as [-> | ->]; auto).
  destruct (Math_min_spec hi (Math_max lo n) Hhi Nm) as (Hr & Hr1 & _).
  destruct Hr as [Hr | Hr]; rewrite Hr in *; repeat split; auto using leb_refl.
Qed.

(** NaN goes through [clamp]. *)
Lemma clamp_nan n lo hi : is_nan n = true -> clamp n lo hi = nan.
Proof.
  intros H. unfold clamp, Math_max. rewrite H, orb_true_r.
  unfold Math_min. replace (is_nan nan) with true by reflexivity.
  rewrite orb_true_r. reflexivity.
Qed.

(** ** Rounding keeps bounded numbers finite *)

Section RoundingBounds.
Local Open Scope Z_scope.

(** The number of binary digits, through [Z.log2]. *)
Lemma digits2_pos_size p : digits2_pos p = Pos.size p.
Proof. induction p; simpl; congruence. Qed.

Lemma Zdigits2_log2 p : Zdigits2 (Zpos p) = Z.succ (Z.log2 (Zpos p)).
Proof.
  unfold Zdigits2. rewrite digits2_pos_size.
  destruct p; simpl; try reflexivity; rewrite Pos2Z.inj_succ; reflexivity.
Qed.

Lemma Zdigits2_nonneg m : 0 <= Zdigits2 m.
Proof. destruct m; simpl; lia. Qed.

Lemma Zdigits2_mono a b : 0 <= a <= b -> Zdigits2 a <= Zdigits2 b.
Proof.
  intros [Ha Hab]. destruct a as [|a|a]; [apply Zdigits2_nonneg| |lia].
  destruct b as [|b|b]; try lia.
  rewrite !Zdigits2_log2. pose proof (Z.log2_le_mono _ _ Hab). lia.
Qed.

Lemma Zdigits2_succ a : 0 <= a -> Zdigits2 (a + 1) <= Zdigits2 a + 1.
Proof.
  intros Ha. destruct a as [|a|a]; [simpl; lia| |lia].
  replace (Z.pos a + 1) with (Z.pos (a + 1)) by lia.
  rewrite !Zdigits2_log2.
  pose proof (Z.log2_succ_le (Z.pos a)). replace (Z.pos (a + 1)) with (Z.succ (Z.pos a)) by lia. lia.
Qed.

Lemma Zdigits2_mul a b :
  Zdigits2 (Zpos (a * b)) <= Zdigits2 (Zpos a) + Zdigits2 (Zpos b).
Proof.
  rewrite !Zdigits2_log2, Pos2Z.inj_mul.
  pose proof (Z.log2_mul_above (Z.pos a) (Z.pos b)). lia.
Qed.

Lemma Zdigits2_shiftl a s :
  0 <= s -> Zdigits2 (Z.shiftl (Zpos a) s) = Zdigits2 (Zpos a) + s.
Proof.
  intros Hs.
  assert (Hpos : 0 < Z.shiftl (Z.pos a) s).
  { rewrite Z.shiftl_mul_pow2 by lia. apply Z.mul_pos_pos; [lia|].
    apply Z.pow_pos_nonneg; lia. }
  destruct (Z.shiftl (Z.pos a) s) as [|q|q] eqn:E; try lia.
  rewrite !Zdigits2_log2, <- E.
  pose proof (Z.log2_nonneg (Z.pos a)).
  rewrite Z.log2_shiftl by lia. lia.
Qed.

(** An invariant of [f] is an invariant of its iterates. *)
Lemma iter_pos_inv {A} (P : A -> Prop) (f : A -> A) :
  (forall x, P x -> P (f x)) -> forall p x, P x -> P (SpecFloat.iter_pos f p x).
Proof.
  intros Hf. induction p; simpl; intros x Hx; auto.
Qed.

(** A right shift does not increase a non-negative mantissa. *)
Lemma shr_1_bound M r :
  0 <= shr_m r <= M -> 0 <= shr_m (shr_1 r) <= M.
Proof.
  destruct r as [m r s]. simpl. intros H.
  destruct m as [|[p|p|]|[p|p|]]; simpl; lia.
Qed.

Lemma shr_record_of_loc_m m l : shr_m (shr_record_of_loc m l) = m.
Proof. destruct l as [|[]]; reflexivity. Qed.

Lemma fexp_mono a b : a <= b -> fexp prec emax a <= fexp prec emax b.
Proof. unfold fexp. lia. Qed.

(** Aligning to the format shrinks the mantissa and bounds the exponent. *)
Lemma shr_fexp_bound m e l D K :
  0 <= m -> Zdigits2 m <= D -> e <= K ->
  0 <= shr_m (fst (shr_fexp prec emax m e l)) <= m
  /\ snd (shr_fexp prec emax m e l) <= Z.max K (fexp prec emax (D + K)).
Proof.
  intros Hm Hd He. unfold shr_fexp, shr.
  pose proof (fexp_mono (Zdigits2 m + e) (D + K) ltac:(lia)) as Hf.
  destruct (fexp prec emax (Zdigits2 m + e) - e) as [|p|p] eqn:E; simpl.
  - rewrite shr_record_of_loc_m. lia.
  - split; [|lia].
    apply (iter_pos_inv (fun r => 0 <= shr_m r <= m)).
    + apply shr_1_bound.
    + rewrite shr_record_of_loc_m. lia.
  - rewrite shr_record_of_loc_m. lia.
Qed.

Lemma round_nearest_even_bound m l :
  0 <= m -> m <= round_nearest_even m l <= m + 1.
Proof.
  intros Hm. unfold round_nearest_even.
  destruct l as [|[]]; try lia. destruct (Z.even m); lia.
Qed.

(** Rounding a non-negative mantissa never gives NaN. *)
Lemma binary_round_aux_not_nan s m e l :
  0 <= m -> binary_round_aux prec emax s m e l <> S754_nan.
Proof.
  intros Hm. unfold binary_round_aux.
  destruct (shr_fexp prec emax m e l) as [r1 e1] eqn:E1.
  pose proof (shr_fexp_bound m e l (Zdigits2 m) e Hm ltac:(lia) ltac:(lia)) as [B1 _].
  rewrite E1 in B1. simpl in B1.
  pose proof (round_nearest_even_bound (shr_m r1) (loc_of_shr_record r1) ltac:(lia)) as B2.
  set (m2 := round_nearest_even (shr_m r1) (loc_of_shr_record r1)) in *.
  destruct (shr_fexp prec emax m2 e1 loc_Exact) as [r3 e3] eqn:E3.
  pose proof (shr_fexp_bound m2 e1 loc_Exact (Zdigits2 m2) e1 ltac:(lia) ltac:(lia) ltac:(lia)) as [B3 _].
  rewrite E3 in B3. simpl in B3.
  destruct (shr_m r3) as [|q|q]; try lia; try congruence.
  destruct (e3 <=? emax - prec); congruence.
Qed.

(** Rounding a mantissa of at most [D] digits at an exponent of at most [K]
    gives a finite number, when there is room below the largest exponent. *)
Lemma binary_round_aux_bounded s m e l D K :
  0 <= m -> Zdigits2 m <= D -> e <= K -> 53 <= D -> -1074 <= K ->
  2 * D + K - 105 <= 971 ->
  SFbounded (2 * D + K - 105) (binary_round_aux prec emax s m e l).
Proof.
  intros Hm Hd He HD HK Hfit. unfold binary_round_aux.
  destruct (shr_fexp prec emax m e l) as [r1 e1] eqn:E1.
  pose proof (shr_fexp_bound m e l D K Hm Hd He) as [B1 X1].
  rewrite E1 in B1, X1. simpl in B1, X1.
  pose proof (round_nearest_even_bound (shr_m r1) (loc_of_shr_record r1) ltac:(lia)) as B2.
  set (m2 := round_nearest_even (shr_m r1) (loc_of_shr_record r1)) in *.
  assert (Hd2 : Zdigits2 m2 <= D + 1).
  { pose proof (Zdigits2_mono m2 (m + 1) ltac:(lia)).
    pose proof (Zdigits2_succ m Hm). lia. }
  destruct (shr_fexp prec emax m2 e1 loc_Exact) as [r3 e3] eqn:E3.
  pose proof (shr_fexp_bound m2 e1 loc_Exact (D + 1) (D + K - 53)
                ltac:(lia) Hd2) as [B3 X3].
  { unfold fexp, SpecFloat.emin, prec, emax in X1. lia. }
  rewrite E3 in B3, X3. simpl in B3, X3.
  assert (He3 : e3 <= 2 * D + K - 105).
  { unfold fexp, SpecFloat.emin, prec, emax in X3. lia. }
  destruct (shr_m r3) as [|q|q]; [exact I| |lia].
  assert (Hle : (e3 <=? emax - prec) = true)
    by (apply Z.leb_le; unfold emax, prec; lia).
  rewrite Hle. exact He3.
Qed.

(** What validity says of a finite number. *)
Lemma valid_finite s m e :
  valid_binary (S754_finite s m e) = true ->
  Zdigits2 (Zpos m) <= 53 /\ -1074 <= e <= 971.
Proof.
  unfold SpecFloat.valid_binary, bounded, canonical_mantissa, fexp,
    SpecFloat.emin, prec, emax.
  intros H. apply andb_true_iff in H. destruct H as [H1 H2].
  apply Z.eqb_eq in H1. apply Z.leb_le in H2. simpl Zdigits2. lia.
Qed.

(** The product of two bounded numbers is bounded. *)
Lemma SFmul_bounded x y Ex Ey :
  valid_binary x = true -> valid_binary y = true ->
  SFbounded Ex x -> SFbounded Ey y ->
  -1074 <= Ex + Ey -> Ex + Ey + 107 <= 971 ->
  SFbounded (Ex + Ey + 107) (SF64mul x y).
Proof.
  intros Vx Vy Bx By Hlo Hhi.
  destruct x as [sx|sx| |sx mx ex], y as [sy|sy| |sy my ey];
    simpl in Bx, By; try contradiction; try exact I.
  apply valid_finite in Vx, Vy.
  unfold SF64mul, SFmul.
  replace (Ex + Ey + 107) with (2 * 106 + (Ex + Ey) - 105) by lia.
  apply binary_round_aux_bounded; try lia.
  pose proof (Zdigits2_mul mx my). lia.
Qed.

(** The integer quotient the division rounds. *)
Lemma SFdiv_core_bound mx ex my ey :
  Zdigits2 (Zpos mx) <= 53 -> Zdigits2 (Zpos my) <= 53 ->
  let '(q, e', _) := SFdiv_core_binary prec emax (Zpos mx) ex (Zpos my) ey in
  0 <= q /\ Zdigits2 q <= 160 /\ e' <= ex - ey.
Proof.
  intros Dx Dy. unfold SFdiv_core_binary.
  set (d1 := Zdigits2 (Z.pos mx)) in *. set (d2 := Zdigits2 (Z.pos my)) in *.
  set (e' := Z.min (fexp prec emax (d1 + ex - (d2 + ey))) (ex - ey)).
  set (s := ex - ey - e').
  assert (Hd1 : 0 <= d1) by apply Zdigits2_nonneg.
  assert (Hd2 : 1 <= d2) by (unfold d2; simpl; lia).
  assert (Hs : 0 <= s <= 106).
  { unfold s, e', fexp, SpecFloat.emin, prec, emax. lia. }
  set (m' := match s with
             | 0 => Z.pos mx
             | Z.pos _ => Z.shiftl (Z.pos mx) s
             | Z.neg _ => 0
             end).
  assert (Hm' : 0 <= m' /\ Zdigits2 m' <= 159).
  { unfold m'. destruct s as [|p|p] eqn:Es.
    - fold d1. lia.
    - rewrite Zdigits2_shiftl by lia. fold d1.
      split; [apply Z.shiftl_nonneg; lia | lia].
    - simpl. lia. }
  destruct (Z.div_eucl m' (Z.pos my)) as [q r] eqn:E.
  assert (Hq : q = m' / Z.pos my) by (unfold Z.div; rewrite E; reflexivity).
  assert (Hq0 : 0 <= q) by (subst q; apply Z.div_pos; lia).
  assert (Hq1 : q <= m').
  { subst q. apply Z.div_le_upper_bound; [lia|]. nia. }
  repeat split; auto.
  - pose proof (Zdigits2_mono q m' ltac:(lia)). lia.
  - unfold e'. lia.
Qed.

(** The quotient of two finite numbers whose exponents differ by at most
    [K] is bounded. *)
Lemma SFdiv_finite_bounded sx mx ex sy my ey K :
  valid_binary (S754_finite sx mx ex) = true ->
  valid_binary (S754_finite sy my ey) = true ->
  ex - ey <= K -> -1074 <= K -> K + 215 <= 971 ->
  SFbounded (K + 215)
    (SF64div (S754_finite sx mx ex) (S754_finite sy my ey)).
Proof.
  intros Vx Vy HK Hlo Hhi. apply valid_finite in Vx, Vy.
  unfold SF64div, SFdiv.
  pose proof (SFdiv_core_bound mx ex my ey ltac:(lia) ltac:(lia)) as H.
  destruct (SFdiv_core_binary prec emax (Z.pos mx) ex (Z.pos my) ey)
    as [[q e'] l].
  destruct H as (Hq & Hd & He).
  replace (K + 215) with (2 * 160 + K - 105) by lia.
  apply binary_round_aux_bounded; lia.
Qed.

(** Dividing by a finite number other than zero never gives NaN. *)
Lemma SFdiv_finite_not_nan E x sy my ey :
  SFbounded E x -> SF64div x (S754_finite sy my ey) <> S754_nan.
Proof.
  intros Bx.
  destruct x as [sx|sx| |sx mx ex]; simpl in Bx; try contradiction;
    unfold SF64div, SFdiv; try congruence.
  unfold SFdiv_core_binary.
  set (e' := Z.min _ _). set (s := ex - ey - e').
  set (m' := match s with
             | 0 => Z.pos mx
             | Z.pos _ => Z.shiftl (Z.pos mx) s
             | Z.neg _ => 0
             end).
  assert (Hm' : 0 <= m').
  { unfold m'. destruct s; try lia. apply Z.shiftl_nonneg. lia. }
  destruct (Z.div_eucl m' (Z.pos my)) as [q r] eqn:Eq.
  assert (Hq : q = m' / Z.pos my) by (unfold Z.div; rewrite Eq; reflexivity).
  apply binary_round_aux_not_nan. subst q. apply Z.div_pos; lia.
Qed.

(** Nor does dividing a finite number by a positive one, infinite or not. *)
Lemma SFdiv_not_nan E x y :
  SFbounded E x -> SFltb (S754_zero false) y = true ->
  SF64div x y <> S754_nan.
Proof.
  intros Bx Hy.
  destruct y as [sy|sy| |sy my ey]; try discriminate.
  - destruct x as [sx|sx| |sx mx ex]; simpl in Bx; try contradiction;
      unfold SF64div, SFdiv; congruence.
  - apply (SFdiv_finite_not_nan E), Bx.
Qed.

End RoundingBounds.

(** ** The rent estimate is finite *)

(** A clamped number that is not NaN comes from one that is not NaN. *)
Lemma clamp_not_nan_inv n lo hi :
  is_nan (clamp n lo hi) = false -> is_nan n = false.
Proof.
  intros H. destruct (is_nan n) eqn:E; auto.
  rewrite (clamp_nan n lo hi E) in H. discriminate.
Qed.

Lemma is_finite_not_nan x : is_finite x = true -> is_nan x = false.
Proof.
  unfold is_finite. destruct (is_nan x); simpl; congruence.
Qed.

(** A float between [0] and a positive finite constant is finite, with
    an exponent no larger than the constant's. *)
Lemma between_bounded x c m e :
  Prim2SF c = S754_finite false m e ->
  (0 <=? x) = true -> (x <=? c) = true -> SFbounded e (Prim2SF x).
Proof.
  intros Hc H0 H1. rewrite leb_SF in H0, H1. rewrite Hc in H1.
  replace (Prim2SF 0) with (S754_zero false) in H0 by reflexivity.
  destruct (Prim2SF x) as [s|s| |s mx ex]; simpl in H0, H1; try exact I;
    try discriminate.
  - destruct s; discriminate.
  - destruct s; try discriminate.
    unfold SFbounded, Z.le.
    destruct (ex ?= e)%Z; try discriminate; congruence.
Qed.

(** A float between two positive finite constants is finite and positive,
    with an exponent no smaller than the lower constant's. *)
Lemma between_exponent x lo hi ml el mh eh :
  Prim2SF lo = S754_finite false ml el ->
  Prim2SF hi = S754_finite false mh eh ->
  (lo <=? x) = true -> (x <=? hi) = true ->
  exists mx ex, Prim2SF x = S754_finite false mx ex /\ (el <= ex <= eh)%Z.
Proof.
  intros Hlo Hhi H0 H1. rewrite leb_SF in H0, H1. rewrite Hlo in H0.
  rewrite Hhi in H1.
  destruct (Prim2SF x) as [s|s| |s mx ex]; simpl in H0, H1;
    try discriminate.
  - destruct s; discriminate.
  - destruct s; try discriminate.
    exists mx, ex. split; auto. unfold Z.le.
    destruct (el ?= ex)%Z; try discriminate;
      destruct (ex ?= eh)%Z; try discriminate; split; congruence.
Qed.

(** [tsubo]: the estimated floor area is finite. *)
Lemma tsubo_bounded seats seatsPerTsubo :
  SFbounded 224
    (Prim2SF (safeDiv (clamp seats 0 500) (clamp seatsPerTsubo 0.8 4.0))).
Proof.
  unfold safeDiv, Number_isFinite.
  set (a := clamp seats 0 500). set (b := clamp seatsPerTsubo 0.8 4.0).
  destruct (is_finite a) eqn:Fa; simpl; [|exact I].
  destruct (is_finite b) eqn:Fb; simpl; [|exact I].
  destruct (b =? 0) eqn:Zb; simpl; [exact I|].
  apply is_finite_not_nan in Fa, Fb.
  pose proof (clamp_not_nan_inv _ _ _ Fa) as Ns.
  pose proof (clamp_not_nan_inv _ _ _ Fb) as Nt.
  destruct (clamp_bounds seats 0 500 Ns eq_refl eq_refl eq_refl)
    as (_ & A0 & A1).
  destruct (clamp_bounds seatsPerTsubo 0.8 4.0 Nt eq_refl eq_refl eq_refl)
    as (_ & B0 & B1).
  fold a in A0, A1. fold b in B0, B1.
  pose proof (between_bounded a 500 8796093022208000 (-44) eq_refl A0 A1) as Ba.
  destruct (between_exponent b 0.8 4.0 7205759403792794 (-53)
              4503599627370496 (-50) eq_refl eq_refl B0 B1)
    as (mb & eb & Eb & Hb).
  rewrite div_spec, Eb.
  pose proof (Prim2SF_valid a) as Va. pose proof (Prim2SF_valid b) as Vb.
  rewrite Eb in Vb.
  destruct (Prim2SF a) as [s|s| |s ma ea]; cbn [SFbounded] in Ba;
    try contradiction.
  - exact I.
  - apply (SFdiv_finite_bounded s ma ea false mb eb 9); auto; lia.
Qed.

(** [rentPerTsubo]: the table entries multiply to a finite number. *)
Lemma rentPerTsubo_bounded area stationDistance tradeArea :
  SFbounded 0
    (Prim2SF (baseRentPerTsubo (getArea area)
              * STATION_DISTANCE stationDistance * TRADE_AREA tradeArea)).
Proof.
  destruct area, stationDistance, tradeArea; vm_compute; intro; discriminate.
Qed.

(** [estimatedRentMonthly]: the estimated rent is finite. *)
Lemma estimatedRentMonthly_bounded area sd ta seats spt bs :
  SFbounded 331
    (Prim2SF (RentSuggestion.estimatedRentMonthly
                (rentSuggestion_of area sd ta seats spt bs))).
Proof.
  unfold rentSuggestion_of. simpl RentSuggestion.estimatedRentMonthly.
  rewrite mul_spec.
  apply (SFmul_bounded _ _ 224 0); try apply Prim2SF_valid; try lia.
  - apply tsubo_bounded.
  - apply rentPerTsubo_bounded.
Qed.

(** [rentRateSuggested] lies between [0] and [0.35]. *)
Lemma rentRateSuggested_range area sd ta seats spt bs :
  let r := RentSuggestion.rentRateSuggested
             (rentSuggestion_of area sd ta seats spt bs) in
  (0 <=? r) = true /\ (r <=? 0.35) = true.
Proof.
  pose proof (estimatedRentMonthly_bounded area sd ta seats spt bs) as B.
  unfold rentSuggestion_of in *.
  simpl RentSuggestion.estimatedRentMonthly in B.
  simpl RentSuggestion.rentRateSuggested.
  set (est := _ * _) in *.
  destruct (0 <? bs) eqn:Hbs; [|split; reflexivity].
  assert (Nq : is_nan (est / bs) = false).
  { apply is_nan_false. rewrite div_spec.
    apply (SFdiv_not_nan 331); auto.
    rewrite FloatAxioms.ltb_spec in Hbs. exact Hbs. }
  destruct (clamp_bounds (est / bs) 0 0.35 Nq eq_refl eq_refl eq_refl)
    as (_ & H0 & H1).
  split; assumption.
Qed.

(** ** Rounding is exact on padded mantissas *)

Section ExactRounding.
Local Open Scope Z_scope.

(** [iter_pos f p] applies [f] [p] times. *)
Lemma iter_pos_comm {A} (f : A -> A) p x :
  SpecFloat.iter_pos f p (f x) = f (SpecFloat.iter_pos f p x).
Proof.
  revert x. induction p; simpl; intros x; try reflexivity.
  - rewrite !IHp. reflexivity.
  - rewrite !IHp. reflexivity.
Qed.

Lemma iter_pos_succ {A} (f : A -> A) p x :
  SpecFloat.iter_pos f (Pos.succ p) x = f (SpecFloat.iter_pos f p x).
Proof.
  revert x. induction p; simpl; intros x; try reflexivity.
  - rewrite !IHp, !iter_pos_comm. reflexivity.
  - rewrite !iter_pos_comm. reflexivity.
Qed.

(** Shifting out [p] zero bits loses nothing. *)
Lemma shr_exact p : forall m : positive,
  SpecFloat.iter_pos shr_1 p
    {| shr_m := Z.pos m * 2 ^ Z.pos p; shr_r := false; shr_s := false |}
  = {| shr_m := Z.pos m; shr_r := false; shr_s := false |}.
Proof.
  induction p using Pos.peano_ind; intros m.
  - replace (Z.pos m * 2 ^ 1) with (Z.pos m~0) by lia. reflexivity.
  - rewrite iter_pos_succ, Pos2Z.inj_succ, Z.pow_succ_r by lia.
    replace (Z.pos m * (2 * 2 ^ Z.pos p)) with (Z.pos m~0 * 2 ^ Z.pos p) by lia.
    rewrite IHp. reflexivity.
Qed.

Lemma Zdigits2_mul_pow2 m k :
  0 <= k -> Zdigits2 (Z.pos m * 2 ^ k) = Zdigits2 (Z.pos m) + k.
Proof.
  intros Hk. rewrite <- Z.shiftl_mul_pow2 by lia. apply Zdigits2_shiftl, Hk.
Qed.

(** Rounding a canonical mantissa padded with [k] zero bits is exact. *)
Lemma binary_round_aux_exact s m e k M E :
  0 <= k -> M = Z.pos m * 2 ^ k -> E = e - k ->
  canonical_mantissa prec emax m e = true -> e <= 971 ->
  binary_round_aux prec emax s M E loc_Exact = S754_finite s m e.
Proof.
  intros Hk -> -> Hc He. unfold canonical_mantissa in Hc.
  apply Z.eqb_eq in Hc.
  assert (Hle : (e <=? emax - prec) = true) by (apply Z.leb_le; unfold emax, prec; lia).
  assert (Hs2 : shr_fexp prec emax (Z.pos m) e loc_Exact
                = ({| shr_m := Z.pos m; shr_r := false; shr_s := false |}, e)).
  { unfold shr_fexp. simpl Zdigits2. rewrite Hc, Z.sub_diag. reflexivity. }
  assert (Hs1 : shr_fexp prec emax (Z.pos m * 2 ^ k) (e - k) loc_Exact
                = ({| shr_m := Z.pos m; shr_r := false; shr_s := false |}, e)).
  { unfold shr_fexp. rewrite Zdigits2_mul_pow2 by lia.
    replace (Zdigits2 (Z.pos m) + k + (e - k)) with (Z.pos (digits2_pos m) + e)
      by (unfold Zdigits2; lia).
    rewrite Hc. replace (e - (e - k)) with k by lia.
    destruct k as [|p|p]; try lia.
    - replace (Z.pos m * 2 ^ 0) with (Z.pos m) by lia.
      rewrite Z.sub_0_r. reflexivity.
    - unfold shr, shr_record_of_loc. rewrite shr_exact. f_equal. lia. }
  unfold binary_round_aux. rewrite Hs1. simpl shr_m. simpl loc_of_shr_record.
  simpl round_nearest_even. rewrite Hs2. simpl shr_m. rewrite Hle. reflexivity.
Qed.

(** The mantissa of a valid finite number is canonical. *)
Lemma valid_canonical s m e :
  valid_binary (S754_finite s m e) = true ->
  canonical_mantissa prec emax m e = true /\ e <= 971.
Proof.
  unfold SpecFloat.valid_binary, bounded. intros H.
  apply andb_true_iff in H. destruct H as [H1 H2]. split; auto.
  apply Z.leb_le in H2. unfold emax, prec in H2. lia.
Qed.

End ExactRounding.

(** Multiplying by one changes nothing. *)
Lemma mul_1_r x : x * 1 = x.
Proof.
  apply Prim2SF_inj. rewrite mul_spec.
  replace (Prim2SF 1) with (S754_finite false 4503599627370496 (-52))
    by reflexivity.
  pose proof (Prim2SF_valid x) as V.
  destruct (Prim2SF x) as [s|s| |s m e]; unfold SF64mul, SFmul;
    rewrite ?xorb_false_r; try reflexivity.
  apply valid_canonical in V. destruct V as [Vc Ve].
  apply (binary_round_aux_exact s m e 52); auto; try lia.
Qed.

(** ** Integers *)

Section Integers.
Local Open Scope Z_scope.

(** [ofInt] normalizes the integer. *)
Lemma Prim2SF_ofInt z :
  0 <= z < 2 ^ 53 ->
  Prim2SF (ofInt z) = binary_normalize prec emax z 0 false.
Proof.
  intros Hz. unfold ofInt. rewrite of_uint63_spec.
  f_equal. rewrite Uint63.of_Z_spec. apply Z.mod_small.
  change Uint63.wB with (2 ^ 63). 
  assert (2 ^ 53 < 2 ^ 63) by (apply Z.pow_lt_mono_r; lia). lia.
Qed.

Lemma Zdigits2_small z : 0 < z < 2 ^ 53 -> 1 <= Zdigits2 z <= 53.
Proof.
  intros Hz. destruct z as [|p|p]; try lia.
  rewrite Zdigits2_log2.
  pose proof (Z.log2_nonneg (Z.pos p)).
  assert (Z.log2 (Z.pos p) < 53) by (apply Z.log2_lt_pow2; lia). lia.
Qed.

(** The left-aligned mantissa of an integer below [2^53] is canonical. *)
Lemma IsInt_canonical z m :
  0 < z < 2 ^ 53 -> Z.pos m = z * 2 ^ (53 - Zdigits2 z) ->
  canonical_mantissa prec emax m (Zdigits2 z - 53) = true.
Proof.
  intros Hz Hm. pose proof (Zdigits2_small z Hz) as Hd.
  unfold canonical_mantissa. apply Z.eqb_eq.
  assert (Hdm : Zdigits2 (Z.pos m) = 53).
  { rewrite Hm. destruct z as [|p|p]; try lia.
    rewrite Zdigits2_mul_pow2 by lia. lia. }
  simpl in Hdm. rewrite Hdm. unfold fexp, SpecFloat.emin, prec, emax. lia.
Qed.

(** Normalizing an integer below [2^53] gives its representation. *)
Lemma IsInt_normalize z :
  0 < z < 2 ^ 53 -> IsInt z (binary_normalize prec emax z 0 false).
Proof.
  intros Hz. pose proof (Zdigits2_small z Hz) as Hd.
  destruct z as [|p|p]; try lia.
  unfold binary_normalize, binary_round, shl_align.
  assert (Hf : fexp prec emax (Z.pos (digits2_pos p) + 0)
               = Zdigits2 (Z.pos p) - 53).
  { unfold fexp, SpecFloat.emin, prec, emax. simpl Zdigits2 in *. lia. }
  rewrite Hf, Z.sub_0_r.
  destruct (Zdigits2 (Z.pos p) - 53) as [|q|q] eqn:E; try lia.
  - exists p. rewrite E. split.
    + apply (binary_round_aux_exact false p 0 0); try lia.
      rewrite <- E. apply IsInt_canonical; auto.
      replace (53 - Zdigits2 (Z.pos p)) with 0 by lia. lia.
    + replace (53 - Zdigits2 (Z.pos p)) with 0 by lia. lia.
  - assert (Hq : Z.pos (Pos.iter xO p q) = Z.pos p * 2 ^ Z.pos q).
    { clear. induction q using Pos.peano_ind.
      - simpl. lia.
      - rewrite Pos.iter_succ, Pos2Z.inj_succ, Z.pow_succ_r by lia.
        rewrite Pos2Z.inj_xO, IHq. lia. }
    exists (Pos.iter xO p q). rewrite E.
    assert (Hk : 53 - Zdigits2 (Z.pos p) = Z.pos q) by lia.
    rewrite Hk. split; auto.
    apply (binary_round_aux_exact false _ _ 0); try lia.
    rewrite <- E. apply IsInt_canonical; auto. rewrite Hk. exact Hq.
Qed.

(** The representation is unique. *)
Lemma IsInt_unique z x y : IsInt z x -> IsInt z y -> x = y.
Proof.
  intros (m & -> & Hm) (m' & -> & Hm'). f_equal. lia.
Qed.

(** The product of two representations represents the product. *)
Lemma IsInt_mul a b x y :
  0 < a -> 0 < b -> a * b < 2 ^ 53 ->
  IsInt a x -> IsInt b y -> IsInt (a * b) (SF64mul x y).
Proof.
  intros Ha Hb Hab (ma & -> & Hma) (mb & -> & Hmb).
  assert (Ha' : 0 < a < 2 ^ 53) by nia.
  assert (Hb' : 0 < b < 2 ^ 53) by nia.
  assert (Hab' : 0 < a * b < 2 ^ 53) by nia.
  pose proof (Zdigits2_small a Ha') as Da.
  pose proof (Zdigits2_small b Hb') as Db.
  pose proof (Zdigits2_small (a * b) Hab') as Dab.
  assert (Dlow : Zdigits2 a + Zdigits2 b - 1 <= Zdigits2 (a * b)).
  { destruct a as [|pa|pa], b as [|pb|pb]; try lia.
    change (Z.pos pa * Z.pos pb) with (Z.pos (pa * pb)).
    rewrite !Zdigits2_log2, Pos2Z.inj_mul.
    pose proof (Z.log2_mul_below (Z.pos pa) (Z.pos pb)). lia. }
  set (dab := Zdigits2 (a * b)) in *.
  assert (Hpos : 0 < a * b * 2 ^ (53 - dab)).
  { apply Z.mul_pos_pos; [lia|]. apply Z.pow_pos_nonneg; lia. }
  destruct (a * b * 2 ^ (53 - dab)) as [|mab|mab] eqn:Emab; try lia.
  exists mab. split; [|symmetry; exact Emab].
  unfold SF64mul, SFmul. simpl xorb.
  apply (binary_round_aux_exact false mab (dab - 53)
           (53 + dab - Zdigits2 a - Zdigits2 b)); try lia.
  - rewrite Pos2Z.inj_mul, Hma, Hmb, <- Emab.
    assert (P : 2 ^ (53 - Zdigits2 a) * 2 ^ (53 - Zdigits2 b)
                = 2 ^ (53 - dab) * 2 ^ (53 + dab - Zdigits2 a - Zdigits2 b)).
    { rewrite <- !Z.pow_add_r by lia. f_equal. lia. }
    replace (a * 2 ^ (53 - Zdigits2 a) * (b * 2 ^ (53 - Zdigits2 b)))
      with (a * b * (2 ^ (53 - Zdigits2 a) * 2 ^ (53 - Zdigits2 b))) by ring.
    rewrite P. ring.
  - apply IsInt_canonical; [lia | symmetry; exact Emab].
Qed.

End Integers.

(** Products of non-negative integers below [2^53] are exact. *)
Lemma mul_ofInt a b :
  (0 <= a < 2 ^ 53)%Z -> (0 <= b < 2 ^ 53)%Z -> (a * b < 2 ^ 53)%Z ->
  ofInt a * ofInt b = ofInt (a * b).
Proof.
  intros Ha Hb Hab. apply Prim2SF_inj.
  rewrite FloatAxioms.mul_spec, !Prim2SF_ofInt by nia.
  destruct (Z.eq_dec a 0) as [->|Na].
  { destruct (Z.eq_dec b 0) as [->|Nb]; [reflexivity|].
    destruct (IsInt_normalize b ltac:(lia)) as (m & Hm & _). rewrite Hm.
    reflexivity. }
  destruct (Z.eq_dec b 0) as [->|Nb].
  { rewrite Z.mul_0_r.
    destruct (IsInt_normalize a ltac:(lia)) as (m & Hm & _). rewrite Hm.
    reflexivity. }
  apply (IsInt_unique (a * b)).
  - apply IsInt_mul; try lia; apply IsInt_normalize; lia.
  - apply IsInt_normalize. nia.
Qed.

(** ** [clamp] inside and above its bounds *)

(** Two numbers that compare equal are the same, or are two zeros. *)
Lemma SFcompare_Eq x y :
  SFcompare x y = Some Eq ->
  x = y \/ exists s s', x = S754_zero s /\ y = S754_zero s'.
Proof.
  destruct x as [s|s| |s m e], y as [s'|s'| |s' m' e']; simpl;
    try discriminate; try (destruct s; discriminate);
    try (destruct s'; discriminate).
  - intros _. right. eauto.
  - destruct s, s'; try discriminate; auto.
  - intros H. left.
    destruct s, s'; try discriminate;
      destruct (e ?= e')%Z eqn:E; try discriminate;
      apply Z.compare_eq in E; subst e';
      change (Pos.compare_cont Eq m m') with (m ?= m')%positive in H;
      destruct (m ?= m')%positive eqn:E'; try discriminate;
      apply Pos.compare_eq in E'; subst m'; reflexivity.
Qed.

(** The sign of a zero. *)
Lemma get_sign_zero x s : Prim2SF x = S754_zero s -> get_sign x = s.
Proof.
  intros H.
  assert (Z : is_zero x = true).
  { unfold is_zero. rewrite FloatAxioms.eqb_spec, H. reflexivity. }
  assert (N : is_nan x = false) by (apply is_nan_false; congruence).
  unfold Prim2SF in H. rewrite N, Z in H. congruence.
Qed.

(** Numbers that compare are not NaN. *)
Lemma ltb_not_nan_l x y : (x <? y) = true -> is_nan x = false.
Proof.
  rewrite ltb_SF. intros H. apply is_nan_false. intros E. rewrite E in H.
  discriminate.
Qed.

Lemma ltb_not_nan_r x y : (x <? y) = true -> is_nan y = false.
Proof.
  rewrite ltb_SF. intros H. apply is_nan_false. intros E. rewrite E in H.
  destruct (Prim2SF x); discriminate.
Qed.

Lemma leb_not_nan_l x y : (x <=? y) = true -> is_nan x = false.
Proof.
  rewrite leb_SF. intros H. apply is_nan_false. intros E. rewrite E in H.
  discriminate.
Qed.

Lemma leb_not_nan_r x y : (x <=? y) = true -> is_nan y = false.
Proof.
  rewrite leb_SF. intros H. apply is_nan_false. intros E. rewrite E in H.
  destruct (Prim2SF x); discriminate.
Qed.

(** Inside its bounds, [clamp] returns its argument (a negative zero
    apart, which [Math.max(0, -0)] turns into [+0]). *)
Lemma clamp_id n lo hi :
  (lo <=? n) = true -> (n <=? hi) = true -> (0 <? hi) = true ->
  Prim2SF n <> S754_zero true ->
  clamp n lo hi = n.
Proof.
  intros Hlo Hhi Hpos Hz.
  pose proof (leb_not_nan_l _ _ Hlo) as Nlo.
  pose proof (leb_not_nan_r _ _ Hlo) as Nn.
  pose proof (leb_not_nan_r _ _ Hhi) as Nhi.
  assert (Hmax : Math_max lo n = n).
  { unfold Math_max. rewrite Nlo, Nn. simpl.
    pose proof (ltb_SF lo n) as L. pose proof (gtb_SF lo n) as G.
    rewrite leb_SF in Hlo.
    destruct (SFcompare (Prim2SF lo) (Prim2SF n)) as [[]|] eqn:C;
      try discriminate; rewrite L, ?G; auto.
    destruct (get_sign lo) eqn:S; auto.
    apply SFcompare_Eq in C. destruct C as [C | (s & s' & C1 & C2)].
    - apply Prim2SF_inj, C.
    - apply Prim2SF_inj. rewrite C1, C2.
      apply get_sign_zero in C1. destruct s'; congruence. }
  unfold clamp. rewrite Hmax. unfold Math_min. rewrite Nhi, Nn. simpl.
  pose proof (ltb_SF hi n) as L. pose proof (gtb_SF hi n) as G.
  rewrite geb_SF in Hhi.
  destruct (SFcompare (Prim2SF hi) (Prim2SF n)) as [[]|] eqn:C;
    try discriminate; rewrite L, ?G; auto.
  destruct (get_sign hi) eqn:S; auto.
  apply SFcompare_Eq in C. destruct C as [C | (s & s' & C1 & C2)].
  - apply Prim2SF_inj, C.
  - rewrite ltb_SF, C1 in Hpos. discriminate.
Qed.

(** Above the upper bound, [clamp] returns the upper bound. *)
Lemma clamp_above q :
  (0.35 <? q) = true -> clamp q 0 0.35 = 0.35.
Proof.
  intros H. pose proof (ltb_not_nan_r _ _ H) as Nq.
  assert (H0 : (0 <? q) = true).
  { rewrite ltb_SF in *.
    replace (Prim2SF 0.35) with (S754_finite false 6305039478318694 (-54)) in H
      by reflexivity.
    replace (Prim2SF 0) with (S754_zero false) by reflexivity.
    destruct (Prim2SF q) as [s|s| |s m e]; simpl in *; try discriminate;
      destruct s; try discriminate; reflexivity. }
  unfold clamp, Math_max. rewrite Nq, H0. simpl.
  unfold Math_min. rewrite Nq, H. reflexivity.
Qed.

(** [zrange] lists the whole interval. *)
Lemma zrange_In lo n z : (lo <= z < lo + Z.of_nat n)%Z -> In z (zrange lo n).
Proof.
  intros H. unfold zrange. apply in_map_iff. exists (Z.to_nat (z - lo)).
  split; [lia|]. apply in_seq. lia.
Qed.

(** The clamps of the projection engine fix the integers of their range
    (checked on each of them). *)
Lemma clamp_ofInt_addG a :
  (0 <= a <= 200)%Z -> clamp (ofInt a) 0 200 = ofInt a.
Proof.
  intros H.
  assert (F : forallb (fun z => Leibniz.eqb (clamp (ofInt z) 0 200) (ofInt z))
                (zrange 0 201) = true) by (vm_compute; reflexivity).
  rewrite forallb_forall in F. apply Leibniz.eqb_spec, F, zrange_In. lia.
Qed.

Lemma clamp_ofInt_ppg g :
  (1 <= g <= 20)%Z -> clamp (ofInt g) 1 20 = ofInt g.
Proof.
  intros H.
  assert (F : forallb (fun z => Leibniz.eqb (clamp (ofInt z) 1 20) (ofInt z))
                (zrange 1 20) = true) by (vm_compute; reflexivity).
  rewrite forallb_forall in F. apply Leibniz.eqb_spec, F, zrange_In. lia.
Qed.

(* ================================================================= *)
(** * Facts about strings and the area resolver *)

(** [startsWith] and [includes] decide prefix and substring. *)
Lemma startsWith_spec p s :
  startsWith p s = true <-> exists post, s = p ++ post.
Proof.
  revert s. induction p as [|x p IH]; intros s; simpl.
  - split; eauto.
  - destruct s as [|y s].
    + split; [discriminate|]. intros (post & H). discriminate.
    + rewrite andb_true_iff, N.eqb_eq, IH. split.
      * intros (-> & post & ->). eauto.
      * intros (post & H). injection H as -> ->. eauto.
Qed.

Lemma includes_spec p s :
  includes p s = true <-> exists pre post, s = pre ++ p ++ post.
Proof.
  induction s as [|y s IH].
  - simpl. rewrite orb_false_r, startsWith_spec. split.
    + intros (post & H). exists [], post. exact H.
    + intros (pre & post & H). destruct pre; simpl in H.
      * eauto.
      * discriminate.
  - cbn [includes]. rewrite orb_true_iff, startsWith_spec, IH. split.
    + intros [(post & H) | (pre & post & H)].
      * exists [], post. exact H.
      * exists (y :: pre), post. simpl. congruence.
    + intros (pre & post & H). destruct pre as [|z pre]; simpl in H.
      * left. eauto.
      * right. injection H as -> ->. eauto.
Qed.

(** A pattern matches when one of its alternatives is a substring. *)
Lemma RegExp_test_spec r a :
  RegExp_test r a = true <->
  exists alt pre post, In alt r /\ a = pre ++ alt ++ post.
Proof.
  unfold RegExp_test. rewrite existsb_exists. split.
  - intros (alt & Hin & H). apply includes_spec in H.
    destruct H as (pre & post & H). eauto 6.
  - intros (alt & pre & post & Hin & H). exists alt. split; auto.
    apply includes_spec. eauto.
Qed.

(** The loop is a [find] on the table. *)
Lemma scanAreas_find tiers a :
  scanAreas tiers a = option_map key (find (fun t => tierMatches t a) tiers).
Proof.
  induction tiers as [|t tiers IH]; simpl; auto.
  unfold tierMatches at 1.
  destruct (existsb (fun r => RegExp_test r a) (patterns t)); auto.
Qed.

(** The loop answers the first tier that matches. *)
Lemma scanAreas_Some tiers a k :
  scanAreas tiers a = Some k <->
  exists before t rest,
    tiers = before ++ t :: rest /\ key t = k /\ tierMatches t a = true
    /\ forall t', In t' before -> tierMatches t' a = false.
Proof.
  induction tiers as [|t tiers IH]; simpl.
  - split; [discriminate|]. intros (b & t & r & H & _). destruct b; discriminate.
  - fold (tierMatches t a). destruct (tierMatches t a) eqn:M.
    + split.
      * intros H. injection H as <-. exists [], t, tiers. simpl. tauto.
      * intros (b & t0 & r & H & Hk & Hm & Hb). destruct b as [|t1 b].
        -- simpl in H. injection H as <- <-. congruence.
        -- simpl in H. injection H as <- ->.
           rewrite (Hb t) in M by (left; reflexivity). discriminate.
    + rewrite IH. split.
      * intros (b & t0 & r & -> & Hk & Hm & Hb).
        exists (t :: b), t0, r. simpl. repeat split; auto.
        intros t' [<- | Hin]; auto.
      * intros (b & t0 & r & H & Hk & Hm & Hb). destruct b as [|t1 b].
        -- simpl in H. injection H as <- <-. congruence.
        -- simpl in H. injection H as <- ->.
           exists b, t0, r. repeat split; auto.
           intros t' Hin. apply Hb. right. exact Hin.
Qed.

(** The loop answers nothing when no tier matches. *)
Lemma scanAreas_None tiers a :
  scanAreas tiers a = None <->
  forall t, In t tiers -> tierMatches t a = false.
Proof.
  induction tiers as [|t tiers IH]; simpl.
  - split; auto. intros _ t [].
  - fold (tierMatches t a). destruct (tierMatches t a) eqn:M.
    + split; [discriminate|]. intros H.
      rewrite (H t) in M by (left; reflexivity). discriminate.
    + rewrite IH. split.
      * intros H t' [<- | Hin]; auto.
      * intros H t' Hin. apply H. right. exact Hin.
Qed.

(** Leading white space hides no occurrence of a pattern that starts with
    another character. *)
Lemma includes_trimStart x p s :
  isWhiteSpace x = false ->
  includes (x :: p) (trimStart s) = includes (x :: p) s.
Proof.
  intros Hx. induction s as [|c s IH]; auto.
  cbn [trimStart]. destruct (isWhiteSpace c) eqn:Hc; auto.
  rewrite IH. cbn [includes startsWith].
  destruct (N.eqb_spec x c) as [->|]; [congruence|]. reflexivity.
Qed.

(** Occurrences survive reversal. *)
Lemma includes_rev p s : includes (rev p) (rev s) = includes p s.
Proof.
  apply eq_true_iff_eq. rewrite !includes_spec. split.
  - intros (pre & post & H). exists (rev post), (rev pre).
    apply (f_equal (@rev N)) in H.
    rewrite rev_involutive, !rev_app_distr, rev_involutive in H.
    rewrite H, app_assoc. reflexivity.
  - intros (pre & post & ->). exists (rev post), (rev pre).
    rewrite !rev_app_distr, app_assoc. reflexivity.
Qed.

(** [noWhiteSpace] survives reversal. *)
Lemma noWhiteSpace_rev p : noWhiteSpace (rev p) = noWhiteSpace p.
Proof.
  unfold noWhiteSpace. apply eq_true_iff_eq. rewrite !forallb_forall.
  split; intros H c Hc; apply H.
  - apply in_rev in Hc. exact Hc.
  - apply in_rev. exact Hc.
Qed.

(** The same, for a pattern without white space. *)
Lemma includes_trimStart' p s :
  p <> [] -> noWhiteSpace p = true ->
  includes p (trimStart s) = includes p s.
Proof.
  intros Hp Hw. destruct p as [|x p]; [congruence|].
  apply includes_trimStart. simpl in Hw. apply andb_true_iff in Hw.
  destruct Hw as [Hw _]. destruct (isWhiteSpace x); auto; discriminate.
Qed.

(** Trimming does not remove an occurrence of a pattern that has no white
    space in it. *)
Lemma includes_trim p s :
  p <> [] -> noWhiteSpace p = true ->
  includes p (trim s) = includes p s.
Proof.
  intros Hp Hw. unfold trim, trimEnd.
  rewrite <- includes_rev, rev_involutive.
  rewrite includes_trimStart'.
  - rewrite includes_rev. apply includes_trimStart'; auto.
  - intros E. apply (f_equal (@rev N)) in E. rewrite rev_involutive in E. auto.
  - rewrite noWhiteSpace_rev. auto.
Qed.

(** The prefecture name is a rule of the first tier. *)
Lemma detect_tokyo_trimmed address :
  includes tokyo_to (trim address) = true ->
  detectAreaFromAddress address = Some tokyo_core.
Proof.
  intros H. unfold detectAreaFromAddress, detectAreaIn.
  destruct (trim address) as [|c a] eqn:E.
  - discriminate.
  - unfold AREA_MASTER. cbn [scanAreas].
    replace (existsb (fun r => RegExp_test r (c :: a)) (patterns AREA_MASTER_0))
      with true; [reflexivity|].
    symmetry. unfold AREA_MASTER_0. cbn [patterns existsb].
    apply orb_true_iff. left. 
    change (re ["東京都"%string]) with [tokyo_to].
    unfold RegExp_test. cbn [existsb]. rewrite H. reflexivity.
Qed.

(* ================================================================= *)
(** * Facts about the effects *)

(** The comparisons of dependencies are reflexive. *)
Lemma Object_is_refl x : Object_is x x = true.
Proof.
  unfold Object_is. destruct (is_nan x) eqn:E; auto.
  unfold is_nan in E. apply negb_false_iff in E. rewrite E.
  apply eqb_reflx.
Qed.

Lemma jsstring_eqb_refl x : jsstring_eqb x x = true.
Proof. induction x; simpl; auto. rewrite N.eqb_refl. auto. Qed.

Lemma IndustryKey_eqb_refl x : IndustryKey_eqb x x = true.
Proof. destruct x; reflexivity. Qed.

Lemma ScenarioKey_eqb_refl x : ScenarioKey_eqb x x = true.
Proof. destruct x; reflexivity. Qed.

Ltac effects_cases :=
  unfold runEffects, effectDetectArea, effectSyncPreset, effectAutoRent;
  repeat match goal with
         | |- context [if ?b then _ else _] => destruct b eqn:?
         | |- context [match detectAreaFromAddress ?a with _ => _ end] =>
             destruct (detectAreaFromAddress a) eqn:?
         end.

(** The effects write [area], [foodRate], [laborRate] and [rentRate] only. *)
Lemma runEffects_inputs prev s :
  let s' := runEffects prev s in
  address s' = address s /\ industry s' = industry s
  /\ scenario s' = scenario s /\ unitType s' = unitType s
  /\ unitPrice s' = unitPrice s /\ peoplePerGroup s' = peoplePerGroup s
  /\ addGroupsPerDay s' = addGroupsPerDay s /\ seats s' = seats s
  /\ adSpend s' = adSpend s /\ daysPerMonth s' = daysPerMonth s
  /\ useBaseline s' = useBaseline s /\ turnover s' = turnover s
  /\ occupancy s' = occupancy s /\ autoDetectArea s' = autoDetectArea s
  /\ stationDistance s' = stationDistance s /\ tradeArea s' = tradeArea s
  /\ seatsPerTsubo s' = seatsPerTsubo s
  /\ autoSetRentRate s' = autoSetRentRate s
  /\ manualRates s' = manualRates s.
Proof.
  cbv zeta. effects_cases; repeat split; try reflexivity; simpl; congruence.
Qed.

(** In manual mode the effects leave the three rates alone. *)
Lemma runEffects_manual prev s :
  manualRates s = true ->
  let s' := runEffects prev s in
  foodRate s' = foodRate s /\ laborRate s' = laborRate s
  /\ rentRate s' = rentRate s.
Proof.
  intros M. cbv zeta.
  unfold runEffects, effectDetectArea, effectSyncPreset, effectAutoRent.
  rewrite M. simpl negb. cbv iota.
  repeat match goal with
         | |- context [if ?b then _ else _] => destruct b eqn:?
         | |- context [match detectAreaFromAddress ?a with _ => _ end] =>
             destruct (detectAreaFromAddress a) eqn:?
         end; repeat split; reflexivity.
Qed.

(** So do any number of rounds. *)
Lemma settle_manual n : forall prev s,
  manualRates s = true ->
  let s' := settle n prev s in
  manualRates s' = true /\ foodRate s' = foodRate s
  /\ laborRate s' = laborRate s /\ rentRate s' = rentRate s.
Proof.
  induction n as [|n IH]; intros prev s M; cbn [settle].
  - auto.
  - pose proof (runEffects_inputs prev s) as I. cbv zeta in I.
    pose proof (runEffects_manual prev s M) as (F & L & R).
    assert (M' : manualRates (runEffects prev s) = true) by (rewrite <- M; tauto).
    destruct (IH (Some s) (runEffects prev s) M') as (H1 & H2 & H3 & H4).
    cbv zeta. rewrite H2, H3, H4, F, L, R. auto.
Qed.

(** [sameDeps] is reflexive. *)
Lemma sameDeps_refl s : sameDeps s s.
Proof. unfold sameDeps. tauto. Qed.

(** No dependency changed: no effect runs. *)
Lemma runEffects_sameDeps p s : sameDeps p s -> runEffects (Some p) s = s.
Proof.
  intros (A & B & C & D & E & F & G).
  unfold runEffects, changedDetectArea, changedSyncPreset, changedAutoRent.
  rewrite A, B, C, D, E, F, G.
  rewrite jsstring_eqb_refl, !eqb_reflx, IndustryKey_eqb_refl,
    ScenarioKey_eqb_refl, Object_is_refl.
  reflexivity.
Qed.

(** Nor in any later round. *)
Lemma settle_sameDeps n : forall p s,
  sameDeps p s -> settle n (Some p) s = s.
Proof.
  induction n as [|n IH]; intros p s H; cbn [settle]; auto.
  rewrite (runEffects_sameDeps p s H). apply IH, sameDeps_refl.
Qed.

(** From the second round on, only the rent suggestion can have changed
    (through [area]), and the round that follows changes nothing. *)
Lemma second_round prev s :
  let s1 := runEffects prev s in
  sameDeps s1 (runEffects (Some s) s1).
Proof.
  cbv zeta. set (s1 := runEffects prev s).
  pose proof (runEffects_inputs prev s) as I. cbv zeta in I. fold s1 in I.
  destruct I as (A & B & C & _ & _ & _ & _ & _ & _ & _ & _ & _ & _ & D & _
                 & _ & _ & E & F).
  unfold runEffects at 1.
  unfold changedDetectArea, changedSyncPreset.
  rewrite A, B, C, D.
  rewrite jsstring_eqb_refl, !eqb_reflx, IndustryKey_eqb_refl,
    ScenarioKey_eqb_refl. cbn [andb negb].
  unfold effectAutoRent.
  repeat match goal with
         | |- context [if ?b then _ else _] => destruct b eqn:?
         end; unfold sameDeps; repeat split; reflexivity.
Qed.

(** Two rounds reach the resting state: further rounds change nothing. *)
Lemma settle_stable n prev s :
  settle (S (S n)) prev s = settle 2 prev s.
Proof.
  cbn [settle]. apply settle_sameDeps, second_round.
Qed.

(** The component rests after [mount]. *)
Lemma mount_rest s : runEffects (Some (mount s)) (mount s) = mount s.
Proof. apply runEffects_sameDeps, sameDeps_refl. Qed.

(** The auto-rent effect writes [rentRate] only. *)
Lemma effectAutoRent_off s acc :
  offBaseline (effectAutoRent s acc) = offBaseline acc.
Proof.
  unfold effectAutoRent.
  repeat match goal with
         | |- context [if ?b then _ else _] => destruct b
         end; reflexivity.
Qed.

(** Off the baseline cells, a round of effects is [runEffectsOff]. *)
Lemma runEffects_off prev s :
  offBaseline (runEffects prev s)
  = runEffectsOff (option_map offBaseline prev) (offBaseline s).
Proof.
  unfold runEffects, runEffectsOff.
  replace (changedDetectArea (option_map offBaseline prev) (offBaseline s))
    with (changedDetectArea prev s) by (destruct prev; reflexivity).
  replace (changedSyncPreset (option_map offBaseline prev) (offBaseline s))
    with (changedSyncPreset prev s) by (destruct prev; reflexivity).
  destruct (changedAutoRent prev s); rewrite ?effectAutoRent_off;
    destruct (changedSyncPreset prev s), (changedDetectArea prev s);
    unfold effectSyncPreset, effectDetectArea;
    change (manualRates (offBaseline s)) with (manualRates s);
    change (autoDetectArea (offBaseline s)) with (autoDetectArea s);
    change (address (offBaseline s)) with (address s);
    repeat match goal with
         | |- context [if ?b then _ else _] => destruct b
         | |- context [match detectAreaFromAddress ?a with _ => _ end] =>
             destruct (detectAreaFromAddress a)
         end; reflexivity.
Qed.

(** Off the baseline cells, mounting is two rounds of [runEffectsOff]. *)
Lemma mount_off s :
  offBaseline (mount s)
  = runEffectsOff (Some (offBaseline s)) (runEffectsOff None (offBaseline s)).
Proof.
  unfold mount. cbn [settle]. rewrite runEffects_off. cbn [option_map].
  rewrite (runEffects_off None s). reflexivity.
Qed.

(** So [occupancy] and [turnover] reach nothing else. *)
Lemma mount_off_baseline s o t :
  offBaseline (mount (setTurnover t (setOccupancy o s)))
  = offBaseline (mount s).
Proof. rewrite !mount_off. reflexivity. Qed.

(** [useBaseline] is read by no effect and no memoised value. *)
Lemma runEffects_useBaseline b prev s :
  runEffects (option_map (setUseBaseline b) prev) (setUseBaseline b s)
  = setUseBaseline b (runEffects prev s).
Proof.
  unfold runEffects.
  replace (changedDetectArea (option_map (setUseBaseline b) prev) (setUseBaseline b s))
    with (changedDetectArea prev s) by (destruct prev; reflexivity).
  replace (changedSyncPreset (option_map (setUseBaseline b) prev) (setUseBaseline b s))
    with (changedSyncPreset prev s) by (destruct prev; reflexivity).
  replace (changedAutoRent (option_map (setUseBaseline b) prev) (setUseBaseline b s))
    with (changedAutoRent prev s) by (destruct prev; reflexivity).
  unfold effectSyncPreset, effectDetectArea, effectAutoRent.
  change (manualRates (setUseBaseline b s)) with (manualRates s);
  change (autoSetRentRate (setUseBaseline b s)) with (autoSetRentRate s);
  change (autoDetectArea (setUseBaseline b s)) with (autoDetectArea s);
  change (address (setUseBaseline b s)) with (address s);
  change (rentSuggestion (setUseBaseline b s)) with (rentSuggestion s);
  change (presetRates (setUseBaseline b s)) with (presetRates s).
  repeat match goal with
         | |- context [if ?b then _ else _] => destruct b
         | |- context [match detectAreaFromAddress ?a with _ => _ end] =>
             destruct (detectAreaFromAddress a)
         end; reflexivity.
Qed.

(** Mounting commutes with setting [useBaseline]. *)
Lemma mount_useBaseline b s :
  mount (setUseBaseline b s) = setUseBaseline b (mount s).
Proof.
  unfold mount. cbn [settle].
  change (runEffects None (setUseBaseline b s))
    with (runEffects (option_map (setUseBaseline b) None) (setUseBaseline b s)).
  rewrite runEffects_useBaseline.
  apply (runEffects_useBaseline b (Some s)).
Qed.

(* ================================================================= *)
(** * The claims *)

(** A float other than [-0] is not the negative zero of the specification. *)
Lemma neg_zero_SF n : n <> (-0) -> Prim2SF n <> S754_zero true.
Proof.
  intros H E. apply H. apply Prim2SF_inj. rewrite E. reflexivity.
Qed.

(** C1.  The projection engine computes the daily incremental revenue as
    [unitPrice * addG * ppg] when the price is per person and as
    [unitPrice * addG] (a factor of one) when it is per group, where [addG]
    and [ppg] are [addGroupsPerDay] and [peoplePerGroup] clamped to
    [0, 200] and [1, 20]; for inputs inside these ranges the clamps change
    nothing, so the product is that of the inputs themselves.  On the
    inputs of scenario 1 (per person, 6000, 2 people, 1 group a day, 26
    days, rates 0.30 / 0.30 / 0.10, 100000 of advertising) the monthly
    incremental revenue is 312000, the gross profit 218400, the ROAS 3.12
    and the gross-profit ROAS 2.184, to the last bit. *)
Theorem C1_incremental_revenue :
  (forall s : State,
     let n := normalized s in
     Normalized.addG n = clamp (addGroupsPerDay s) 0 200
     /\ Normalized.ppg n = clamp (peoplePerGroup s) 1 20
     /\ Normalized.addRevenueDaily n
        = unitPrice s * Normalized.addG n
          * match unitType s with
            | per_person => Normalized.ppg n
            | per_group => 1
            end
     /\ Normalized.addRevenueMonthly n
        = Normalized.addRevenueDaily n * clamp (daysPerMonth s) 1 31
     /\ ((0 <=? addGroupsPerDay s) = true ->
         (addGroupsPerDay s <=? 200) = true ->
         addGroupsPerDay s <> (-0) ->
         (1 <=? peoplePerGroup s) = true ->
         (peoplePerGroup s <=? 20) = true ->
         Normalized.addRevenueDaily n
         = unitPrice s * addGroupsPerDay s
           * match unitType s with
             | per_person => peoplePerGroup s
             | per_group => 1
             end))
  /\ (forall seats occupancy turnover : float,
        let n :=
          normalized_of
            (baseline_of 2 seats 26 per_person 6000 occupancy turnover)
            1 per_person 6000 0.30 0.30 0.10 100000 in
        Normalized.addRevenueDaily n = 12000
        /\ Normalized.addRevenueMonthly n = 312000
        /\ Normalized.addGrossProfit n = 218400
        /\ Normalized.roas n = 3.12
        /\ Normalized.gpRoas n = 2.184).
Proof.
  split.
  - intros s n.
    assert (F : Normalized.addRevenueDaily n
                = unitPrice s * Normalized.addG n
                  * match unitType s with
                    | per_person => Normalized.ppg n
                    | per_group => 1
                    end).
    { unfold n, normalized, normalized_of.
      cbn [Normalized.addRevenueDaily Normalized.addG Normalized.ppg].
      destruct (unitType s); [reflexivity|]. rewrite mul_1_r. reflexivity. }
    repeat split; try reflexivity; try exact F.
    intros A0 A1 Az G0 G1. rewrite F.
    change (Normalized.addG n) with (clamp (addGroupsPerDay s) 0 200).
    change (Normalized.ppg n) with (clamp (peoplePerGroup s) 1 20).
    rewrite (clamp_id _ 0 200 A0 A1 eq_refl (neg_zero_SF _ Az)).
    destruct (unitType s); [|reflexivity].
    rewrite (clamp_id (peoplePerGroup s) 1 20 G0 G1 eq_refl); [reflexivity|].
    intros E. rewrite leb_SF, E in G0. discriminate.
  - intros seats occupancy turnover. cbv zeta. repeat split; reflexivity.
Qed.

(** The in-range reading of C1 at the initial state of the component. *)
Lemma C1_incremental_revenue_witness :
  Normalized.addRevenueDaily (normalized initialState)
  = unitPrice initialState * addGroupsPerDay initialState
    * peoplePerGroup initialState.
Proof.
  refine (proj2 (proj2 (proj2 (proj2
            (proj1 C1_incremental_revenue initialState)))) _ _ _ _ _);
    try reflexivity.
  intros E. apply (f_equal (fun x => 1 / x <? 0)) in E.
  vm_compute in E. discriminate.
Defined.

(** C2.  On every address and every ordered tier table the resolver does
    what section 4.2 says: it trims the address and answers [None] when
    nothing is left; otherwise it answers the key of the first tier, in the
    order of the table, one of whose patterns matches, a pattern matching
    when one of its alternatives occurs somewhere in the address; it
    answers [None] exactly when the address is blank or no tier matches.
    [detectAreaFromAddress] is this function on [AREA_MASTER]; being a
    function, it is total and has no effect. *)
Theorem C2_area_resolver :
  forall (tiers : list AreaMaster) (address : jsstring),
    detectAreaIn tiers address = resolve_spec tiers address
    /\ detectAreaFromAddress address = resolve_spec AREA_MASTER address
    /\ (trim address = [] -> detectAreaIn tiers address = None)
    /\ (forall k,
          detectAreaIn tiers address = Some k <->
          trim address <> []
          /\ exists before t rest,
               tiers = before ++ t :: rest /\ key t = k
               /\ tierMatches t (trim address) = true
               /\ forall t', In t' before ->
                             tierMatches t' (trim address) = false)
    /\ (detectAreaIn tiers address = None <->
        trim address = []
        \/ forall t, In t tiers -> tierMatches t (trim address) = false)
    /\ (forall t,
          tierMatches t (trim address) = true <->
          exists r alt pre post,
            In r (patterns t) /\ In alt r
            /\ trim address = pre ++ alt ++ post).
Proof.
  intros tiers address.
  assert (R : forall ts, detectAreaIn ts address = resolve_spec ts address).
  { intros ts. unfold detectAreaIn, resolve_spec.
    destruct (trim address); [reflexivity|apply scanAreas_find]. }
  split; [apply R|]. split; [apply R|].
  unfold detectAreaIn. split; [|split; [|split]].
  - intros ->. reflexivity.
  - intros k. destruct (trim address) as [|c a] eqn:E.
    + split; [discriminate|]. intros [H _]. congruence.
    + rewrite scanAreas_Some. split.
      * intros H. split; [discriminate|exact H].
      * intros [_ H]. exact H.
  - destruct (trim address) as [|c a] eqn:E.
    + split; auto.
    + rewrite scanAreas_None. split; auto.
      intros [H|H]; [discriminate|exact H].
  - intros t. unfold tierMatches. rewrite existsb_exists. split.
    + intros (r & Hr & H). apply RegExp_test_spec in H.
      destruct H as (alt & pre & post & Ha & H). exists r, alt, pre, post.
      auto.
    + intros (r & alt & pre & post & Hr & Ha & H). exists r. split; auto.
      apply RegExp_test_spec. exists alt, pre, post. auto.
Qed.

(** C2 at the address of the input placeholder, surrounded by blanks: the
    prefecture rule of the seventh tier is the first to match. *)
Lemma C2_area_resolver_witness :
  detectAreaIn AREA_MASTER (utf16 " 奈良県天理市 ") = Some regional_city
  <-> trim (utf16 " 奈良県天理市 ") <> []
      /\ exists before t rest,
           AREA_MASTER = before ++ t :: rest /\ key t = regional_city
           /\ tierMatches t (trim (utf16 " 奈良県天理市 ")) = true
           /\ forall t', In t' before ->
                tierMatches t' (trim (utf16 " 奈良県天理市 ")) = false.
Proof.
  exact (proj1 (proj2 (proj2 (proj2
           (C2_area_resolver AREA_MASTER (utf16 " 奈良県天理市 ")))))
           regional_city).
Defined.

(** C10.  An address that contains the prefecture name 東京都 (before or
    after trimming, which is the same) resolves to [tokyo_core]: the name is
    a pattern of the first tier.  So auto-detection never answers
    [tokyo_suburb] for such an address, whatever suburb keyword it also
    contains. *)
Theorem C10_tokyo_prefecture_is_core :
  forall address : jsstring,
    includes tokyo_to (trim address) = true
    \/ includes tokyo_to address = true ->
    In [tokyo_to] (patterns AREA_MASTER_0)
    /\ hd_error AREA_MASTER = Some AREA_MASTER_0
    /\ detectAreaFromAddress address = Some tokyo_core
    /\ detectAreaFromAddress address <> Some tokyo_suburb.
Proof.
  intros address H.
  assert (T : includes tokyo_to (trim address) = true).
  { destruct H as [H|H]; [exact H|].
    rewrite includes_trim; [exact H|discriminate|reflexivity]. }
  split; [left; reflexivity|]. split; [reflexivity|].
  rewrite (detect_tokyo_trimmed address T). split; [reflexivity|discriminate].
Qed.

(** C10 on an address of Tachikawa, a keyword of the suburb tier. *)
Lemma C10_tokyo_prefecture_is_core_witness :
  includes (utf16 "立川") (utf16 " 東京都立川市曙町 ") = true
  /\ detectAreaFromAddress (utf16 " 東京都立川市曙町 ") = Some tokyo_core
  /\ detectAreaFromAddress (utf16 " 東京都立川市曙町 ") <> Some tokyo_suburb.
Proof.
  split; [reflexivity|].
  exact (proj2 (proj2 (C10_tokyo_prefecture_is_core
                         (utf16 " 東京都立川市曙町 ")
                         (or_intror eq_refl)))).
Defined.

(** C3.  For every area, distance, trade area, seat count, seats-per-tsubo
    ratio and baseline revenue, the suggested rent ratio is
    [clamp(estimatedRentMonthly / baselineSales, 0, 0.35)] when the baseline
    revenue is positive and [0] otherwise, in particular when it is zero of
    either sign, so nothing is divided by zero; it always lies between [0]
    and [0.35]; and it is [0.35] exactly when the raw quotient exceeds
    [0.35]. *)
Theorem C3_rent_ratio_clamped :
  forall (area : AreaKey) (stationDistance : StationDistanceKey)
         (tradeArea : TradeAreaKey)
         (seats seatsPerTsubo baselineMonthlyRevenue : float),
    let rs := fun revenue =>
      rentSuggestion_of area stationDistance tradeArea seats seatsPerTsubo
        revenue in
    let r := RentSuggestion.rentRateSuggested (rs baselineMonthlyRevenue) in
    let quotient :=
      RentSuggestion.estimatedRentMonthly (rs baselineMonthlyRevenue)
      / baselineMonthlyRevenue in
    r = (if 0 <? baselineMonthlyRevenue then clamp quotient 0 0.35 else 0)
    /\ RentSuggestion.rentRateSuggested (rs 0) = 0
    /\ RentSuggestion.rentRateSuggested (rs (-0)) = 0
    /\ ((baselineMonthlyRevenue =? 0) = true -> r = 0)
    /\ (0 <=? r) = true /\ (r <=? 0.35) = true
    /\ ((0 <? baselineMonthlyRevenue) = true ->
        (0.35 <? quotient) = true -> r = 0.35).
Proof.
  intros area sd ta seats spt bs rs r quotient.
  assert (D : r = if 0 <? bs then clamp quotient 0 0.35 else 0)
    by reflexivity.
  split; [exact D|]. split; [reflexivity|]. split; [reflexivity|].
  split; [|split; [|split]].
  - intros Z. rewrite D.
    replace (0 <? bs) with false; [reflexivity|].
    symmetry. rewrite FloatAxioms.eqb_spec in Z.
    rewrite FloatAxioms.ltb_spec.
    replace (Prim2SF 0) with (S754_zero false) in * by reflexivity.
    unfold SFeqb, SFltb in *. rewrite SFcompare_antisym.
    destruct (SFcompare (Prim2SF bs) (S754_zero false)) as [[]|];
      try discriminate; reflexivity.
  - apply (rentRateSuggested_range area sd ta seats spt bs).
  - apply (rentRateSuggested_range area sd ta seats spt bs).
  - intros Hpos Hq. rewrite D, Hpos. apply clamp_above, Hq.
Qed.

(** C3 where the estimated rent (16500 a tsubo on 15 tsubo, 247500 a month)
    is set against a baseline revenue of 500000: the quotient 0.495 is cut
    to 0.35. *)
Lemma C3_rent_ratio_clamped_witness :
  RentSuggestion.estimatedRentMonthly
    (rentSuggestion_of regional_city walk_4_7 station_front 30 2.0 500000)
  = 247500
  /\ RentSuggestion.rentRateSuggested
       (rentSuggestion_of regional_city walk_4_7 station_front 30 2.0 500000)
     = 0.35.
Proof.
  split; [reflexivity|].
  exact (proj2 (proj2 (proj2 (proj2 (proj2 (proj2
           (C3_rent_ratio_clamped regional_city walk_4_7 station_front
              30 2.0 500000))))))
           eq_refl eq_refl).
Defined.

(** [Number.isFinite] holds of zeros and finite numbers only. *)
Lemma is_finite_bounded x :
  is_finite x = true -> SFbounded 971 (Prim2SF x).
Proof.
  unfold is_finite. intros H. apply negb_true_iff, orb_false_iff in H.
  destruct H as [Hn Hi]. apply is_nan_false in Hn.
  unfold is_infinity in Hi. rewrite FloatAxioms.eqb_spec, abs_spec in Hi.
  pose proof (Prim2SF_valid x) as V.
  destruct (Prim2SF x) as [s|s| |s m e]; cbn [SFbounded];
    try exact I; try discriminate; try congruence.
  apply valid_finite in V. lia.
Qed.

(** A float that is not [== 0] is no zero. *)
Lemma eqb_zero_SF b :
  (b =? 0) = false -> forall s, Prim2SF b <> S754_zero s.
Proof.
  intros H s E. rewrite FloatAxioms.eqb_spec, E in H. discriminate.
Qed.

(** Safe division never gives NaN. *)
Lemma safeDiv_not_nan a b : is_nan (safeDiv a b) = false.
Proof.
  unfold safeDiv.
  destruct (Number_isFinite a) eqn:Ha; [|reflexivity].
  destruct (Number_isFinite b) eqn:Hb; [|reflexivity].
  destruct (b =? 0) eqn:Hz; [reflexivity|]. simpl.
  apply is_nan_false. rewrite FloatAxioms.div_spec.
  pose proof (is_finite_bounded a Ha) as Ba.
  pose proof (is_finite_bounded b Hb) as Bb.
  pose proof (eqb_zero_SF b Hz) as Nz.
  destruct (Prim2SF b) as [s|s| |s m e]; cbn [SFbounded] in Bb;
    try contradiction.
  - exfalso. apply (Nz s). reflexivity.
  - apply (SFdiv_finite_not_nan 971), Ba.
Qed.

(** C7.  Safe division is total.  When the divisor is zero, or an operand
    is not finite, the result is [0]; otherwise it is the quotient [a / b];
    it is never NaN.  In particular [safeDiv x 0 = 0] for every [x] and
    [safeDiv NaN y = 0] for every [y]. *)
Theorem C7_safe_division :
  forall a b : float,
    ((b =? 0) = true \/ Number_isFinite a = false
     \/ Number_isFinite b = false -> safeDiv a b = 0)
    /\ ((b =? 0) = false -> Number_isFinite a = true ->
        Number_isFinite b = true -> safeDiv a b = a / b)
    /\ is_nan (safeDiv a b) = false
    /\ safeDiv a 0 = 0 /\ safeDiv a (-0) = 0
    /\ safeDiv nan b = 0 /\ safeDiv infinity b = 0
    /\ safeDiv neg_infinity b = 0
    /\ safeDiv a nan = 0 /\ safeDiv a infinity = 0
    /\ safeDiv a neg_infinity = 0.
Proof.
  intros a b.
  assert (G : forall x y, (y =? 0) = true \/ Number_isFinite x = false
                          \/ Number_isFinite y = false -> safeDiv x y = 0).
  { intros x y H. unfold safeDiv.
    destruct H as [H | [H | H]]; rewrite H; simpl;
      rewrite ?orb_true_r; reflexivity. }
  split; [apply G|]. split; [|split].
  - intros Hz Ha Hb. unfold safeDiv. rewrite Hz, Ha, Hb. reflexivity.
  - apply safeDiv_not_nan.
  - repeat split; apply G; auto.
Qed.

(** C7 on finite operands, and on the two special cases the specification
    names. *)
Lemma C7_safe_division_witness :
  safeDiv 312000 100000 = 312000 / 100000
  /\ safeDiv 5 0 = 0 /\ safeDiv nan 7 = 0.
Proof.
  split; [|split].
  - exact (proj1 (proj2 (C7_safe_division 312000 100000))
             eq_refl eq_refl eq_refl).
  - exact (proj1 (C7_safe_division 5 0) (or_introl eq_refl)).
  - exact (proj1 (C7_safe_division nan 7) (or_intror (or_introl eq_refl))).
Defined.

(** C6.  The baseline revenue estimator, on every input: [peoplePerGroup],
    [seats] and [daysPerMonth] are clamped to [1, 20], [0, 500] and [1, 31]
    (a number that is not NaN does land in the range); the price per person
    is [unitPrice] when the price is per person and the safe division
    [unitPrice / ppg] when it is per group, which is never NaN; the covers
    per day are [seatsN * occupancy * turnover], the daily revenue is
    [coversPerDay * pricePerPerson] and the monthly revenue is
    [dailyRevenue * days].  The estimator is a total function: it has a
    result on every input. *)
Theorem C6_baseline_estimate :
  forall (peoplePerGroup seats daysPerMonth : float) (unitType : UnitType)
         (unitPrice occupancy turnover : float),
    let b := baseline_of peoplePerGroup seats daysPerMonth unitType
               unitPrice occupancy turnover in
    Baseline.ppg b = clamp peoplePerGroup 1 20
    /\ Baseline.seatsN b = clamp seats 0 500
    /\ Baseline.days b = clamp daysPerMonth 1 31
    /\ (is_nan peoplePerGroup = false ->
        (1 <=? Baseline.ppg b) = true /\ (Baseline.ppg b <=? 20) = true)
    /\ (is_nan seats = false ->
        (0 <=? Baseline.seatsN b) = true
        /\ (Baseline.seatsN b <=? 500) = true)
    /\ (is_nan daysPerMonth = false ->
        (1 <=? Baseline.days b) = true /\ (Baseline.days b <=? 31) = true)
    /\ Baseline.pricePerPerson b
       = match unitType with
         | per_person => unitPrice
         | per_group => safeDiv unitPrice (Baseline.ppg b)
         end
    /\ (unitType = per_group -> is_nan (Baseline.pricePerPerson b) = false)
    /\ Baseline.coversPerDay b = Baseline.seatsN b * occupancy * turnover
    /\ Baseline.baselineRevenueDaily b
       = Baseline.coversPerDay b * Baseline.pricePerPerson b
    /\ Baseline.baselineRevenueMonthly b
       = Baseline.baselineRevenueDaily b * Baseline.days b.
Proof.
  intros ppg seats days ut price occ turn b.
  repeat split; try reflexivity.
  - apply (clamp_bounds ppg 1 20); auto.
  - apply (clamp_bounds ppg 1 20); auto.
  - apply (clamp_bounds seats 0 500); auto.
  - apply (clamp_bounds seats 0 500); auto.
  - apply (clamp_bounds days 1 31); auto.
  - apply (clamp_bounds days 1 31); auto.
  - intros ->. apply safeDiv_not_nan.
Qed.

(** C6 on a per-group price of 12000 for 2 people, 30 seats at 65%
    occupancy and 2 turns, 26 days: 6000 a person, 39 covers, 234000 a day,
    6084000 a month. *)
Lemma C6_baseline_estimate_witness :
  let b := baseline_of 2 30 26 per_group 12000 0.65 2.0 in
  ((1 <=? Baseline.ppg b) = true /\ (Baseline.ppg b <=? 20) = true)
  /\ is_nan (Baseline.pricePerPerson b) = false
  /\ Baseline.pricePerPerson b = 6000
  /\ Baseline.coversPerDay b = 39
  /\ Baseline.baselineRevenueMonthly b = 6084000.
Proof.
  pose proof (C6_baseline_estimate 2 30 26 per_group 12000 0.65 2.0) as H.
  cbv zeta in H.
  destruct H as (_ & _ & _ & H1 & _ & _ & _ & H2 & _).
  split; [exact (H1 eq_refl)|]. split; [exact (H2 eq_refl)|].
  repeat split; reflexivity.
Defined.

(** C4.  In manual mode the effects never write the rates: whatever the
    previous render, the value of [autoSetRentRate], the suggested rent
    ratio and the number of rounds of effects, the rent rate the projection
    engine uses is the [rentRate] the user supplied, clamped to [0, 0.95],
    and likewise for the food and labor rates. *)
Theorem C4_manual_rates_take_precedence :
  forall (n : nat) (prev : option State) (s : State),
    manualRates s = true ->
    let s' := settle n prev s in
    manualRates s' = true
    /\ rentRate s' = rentRate s
    /\ rent (effectiveRates s') = clamp (rentRate s) 0 0.95
    /\ food (effectiveRates s') = clamp (foodRate s) 0 0.95
    /\ labor (effectiveRates s') = clamp (laborRate s) 0 0.95.
Proof.
  intros n prev s M.
  destruct (settle_manual n prev s M) as (H1 & H2 & H3 & H4).
  cbv zeta. unfold effectiveRates, normalized, normalized_of.
  cbn [food labor rent Normalized.food Normalized.labor Normalized.rent].
  rewrite H2, H3, H4. auto.
Qed.

(** C4 on the initial inputs switched to manual with a rent rate of 0.2
    typed in, while auto-set is on and suggests 0.0407: the engine uses
    0.2. *)
Lemma C4_manual_rates_take_precedence_witness :
  let s := setRentRate 0.2 (setManualRates true initialState) in
  autoSetRentRate s = true
  /\ RentSuggestion.rentRateSuggested (rentSuggestion s)
     = 0.040680473372781065
  /\ rent (effectiveRates (mount s)) = 0.2.
Proof.
  split; [reflexivity|]. split; [reflexivity|].
  exact (proj1 (proj2 (proj2
           (C4_manual_rates_take_precedence 2 None
              (setRentRate 0.2 (setManualRates true initialState))
              eq_refl)))).
Defined.

(** Turning a switch does not run the preset effect, whose dependencies are
    [industry] and [scenario] only: the food and labor rates stay. *)
Lemma toggle_keeps_food_labor (ev : State -> State) (s : State) :
  industry (ev s) = industry s -> scenario (ev s) = scenario s ->
  foodRate (after ev s) = foodRate (ev s)
  /\ laborRate (after ev s) = laborRate (ev s).
Proof.
  intros Hi Hs. unfold after. cbn [settle].
  assert (K : forall p x, changedSyncPreset (Some p) x = false ->
              foodRate (runEffects (Some p) x) = foodRate x
              /\ laborRate (runEffects (Some p) x) = laborRate x).
  { intros p x C. unfold runEffects. rewrite C.
    unfold effectDetectArea, effectAutoRent.
    repeat match goal with
           | |- context [if ?b then _ else _] => destruct b eqn:?
           | |- context [match detectAreaFromAddress ?a with _ => _ end] =>
               destruct (detectAreaFromAddress a) eqn:?
           end; split; reflexivity. }
  assert (C1 : changedSyncPreset (Some s) (ev s) = false).
  { unfold changedSyncPreset. rewrite Hi, Hs.
    rewrite IndustryKey_eqb_refl, ScenarioKey_eqb_refl. reflexivity. }
  assert (C2 : changedSyncPreset (Some (ev s)) (runEffects (Some s) (ev s))
               = false).
  { pose proof (runEffects_inputs (Some s) (ev s)) as I. cbv zeta in I.
    destruct I as (_ & I1 & I2 & _).
    unfold changedSyncPreset. rewrite I1, I2.
    rewrite IndustryKey_eqb_refl, ScenarioKey_eqb_refl. reflexivity. }
  destruct (K _ _ C1) as [F1 L1]. destruct (K _ _ C2) as [F2 L2].
  rewrite F2, L2, F1, L1. auto.
Qed.

(** C5.  The component at rest on its initial inputs; the user switches to
    manual, types a food rate of 0.5 and a labor rate of 0.4, and switches
    manual off again.  The rates in force are still 0.5 and 0.4, not the
    0.30 and 0.30 of the preset table for (izakaya, standard): the effect
    that copies the preset depends on [industry] and [scenario] only, so
    turning [manualRates] off does not run it.  Pressing the reset button
    instead leaves them at 0.5 and 0.4 as well.  Likewise, turning
    [autoSetRentRate] off at rest leaves the suggested 0.0407 in force
    instead of the preset 0.10.  And no toggle of [manualRates] ever changes
    the food and labor rates. *)
Theorem C5_toggle_leaves_stale_rates :
  let rest := mount initialState in
  let typed :=
    after (setLaborRate 0.4)
      (after (setFoodRate 0.5) (after (setManualRates true) rest)) in
  let back := after (setManualRates false) typed in
  let again := after resetInputs typed in
  let unset := after (setAutoSetRentRate false) rest in
  (manualRates back = false
   /\ industry back = izakaya /\ scenario back = standard
   /\ food (presetRates back) = 0.30 /\ labor (presetRates back) = 0.30
   /\ food (effectiveRates back) = 0.5
   /\ labor (effectiveRates back) = 0.4)
  /\ (manualRates again = false
      /\ food (effectiveRates again) = 0.5
      /\ labor (effectiveRates again) = 0.4)
  /\ (manualRates unset = false /\ autoSetRentRate unset = false
      /\ rent (presetRates unset) = 0.10
      /\ rent (effectiveRates unset) = 0.040680473372781065)
  /\ (forall (s : State) (b : bool),
        foodRate (after (setManualRates b) s) = foodRate s
        /\ laborRate (after (setManualRates b) s) = laborRate s).
Proof.
  cbv zeta. split; [|split; [|split]].
  - repeat split; vm_compute; reflexivity.
  - repeat split; vm_compute; reflexivity.
  - repeat split; vm_compute; reflexivity.
  - intros s b.
    exact (toggle_keeps_food_labor (setManualRates b) s eq_refl eq_refl).
Qed.

(** C8, as claimed, fails.  Two input records with [useBaseline = false]
    that differ only in [occupancy] (0.45 and 0.85): the rent estimate
    itself is the same 247500, but the suggested rent ratio, the rent rate
    in force after the effects, and the projection figure after food, labor
    and rent all differ. *)
Lemma C8_counterexample :
  let s1 := setOccupancy 0.45 (setUseBaseline false initialState) in
  let s2 := setOccupancy 0.85 (setUseBaseline false initialState) in
  useBaseline s1 = false /\ useBaseline s2 = false
  /\ s2 = setOccupancy 0.85 s1
  /\ RentSuggestion.rentRateSuggested (rentSuggestion (mount s1))
     = 0.05876068376068376
  /\ RentSuggestion.rentRateSuggested (rentSuggestion (mount s2))
     = 0.031108597285067874
  /\ rent (effectiveRates (mount s1)) = 0.05876068376068376
  /\ rent (effectiveRates (mount s2)) = 0.031108597285067874
  /\ Normalized.addAfterFLR (normalized (mount s1)) = 106466.66666666666
  /\ Normalized.addAfterFLR (normalized (mount s2)) = 115094.11764705881
  /\ rent (effectiveRates (mount s1)) <> rent (effectiveRates (mount s2)).
Proof.
  cbv zeta. repeat split; try (vm_compute; reflexivity).
  intros E. apply Leibniz.eqb_spec in E. vm_compute in E. discriminate.
Qed.

(** Two states that agree off the baseline cells agree on the rent estimate,
    on the food and labor rates, and on the figures computed from neither
    the rent rate nor the baseline revenue. *)
Lemma off_agree (x y : State) :
  offBaseline x = offBaseline y ->
  let rs := rentSuggestion y in
  let rs' := rentSuggestion x in
  let n := normalized y in
  let n' := normalized x in
  (RentSuggestion.areaLabel rs' = RentSuggestion.areaLabel rs
   /\ RentSuggestion.rentPerTsubo rs' = RentSuggestion.rentPerTsubo rs
   /\ RentSuggestion.tsubo rs' = RentSuggestion.tsubo rs
   /\ RentSuggestion.estimatedRentMonthly rs'
      = RentSuggestion.estimatedRentMonthly rs)
  /\ (Normalized.food n' = Normalized.food n
      /\ Normalized.labor n' = Normalized.labor n
      /\ Normalized.fl n' = Normalized.fl n)
  /\ (Normalized.ppg n' = Normalized.ppg n
      /\ Normalized.seatsN n' = Normalized.seatsN n
      /\ Normalized.addG n' = Normalized.addG n
      /\ Normalized.days n' = Normalized.days n
      /\ Normalized.addRevenueDaily n' = Normalized.addRevenueDaily n
      /\ Normalized.addRevenueMonthly n' = Normalized.addRevenueMonthly n
      /\ Normalized.addGrossProfit n' = Normalized.addGrossProfit n
      /\ Normalized.addAfterFL n' = Normalized.addAfterFL n
      /\ Normalized.roas n' = Normalized.roas n
      /\ Normalized.gpRoas n' = Normalized.gpRoas n
      /\ Normalized.breakevenGroupsPerDay_Gross n'
         = Normalized.breakevenGroupsPerDay_Gross n).
Proof.
  intros H. cbv zeta.
  split; [|split].
  - split; [|split; [|split]].
    + exact (f_equal (fun x => RentSuggestion.areaLabel (rentSuggestion x)) H).
    + exact (f_equal (fun x => RentSuggestion.rentPerTsubo (rentSuggestion x))
               H).
    + exact (f_equal (fun x => RentSuggestion.tsubo (rentSuggestion x)) H).
    + exact (f_equal
               (fun x => RentSuggestion.estimatedRentMonthly (rentSuggestion x))
               H).
  - split; [|split].
    + exact (f_equal (fun x => Normalized.food (normalized x)) H).
    + exact (f_equal (fun x => Normalized.labor (normalized x)) H).
    + exact (f_equal (fun x => Normalized.fl (normalized x)) H).
  - split; [|split; [|split; [|split; [|split; [|split; [|split; [|split;
      [|split; [|split]]]]]]]]].
    + exact (f_equal (fun x => Normalized.ppg (normalized x)) H).
    + exact (f_equal (fun x => Normalized.seatsN (normalized x)) H).
    + exact (f_equal (fun x => Normalized.addG (normalized x)) H).
    + exact (f_equal (fun x => Normalized.days (normalized x)) H).
    + exact (f_equal (fun x => Normalized.addRevenueDaily (normalized x)) H).
    + exact (f_equal (fun x => Normalized.addRevenueMonthly (normalized x)) H).
    + exact (f_equal (fun x => Normalized.addGrossProfit (normalized x)) H).
    + exact (f_equal (fun x => Normalized.addAfterFL (normalized x)) H).
    + exact (f_equal (fun x => Normalized.roas (normalized x)) H).
    + exact (f_equal (fun x => Normalized.gpRoas (normalized x)) H).
    + exact (f_equal
               (fun x => Normalized.breakevenGroupsPerDay_Gross (normalized x))
               H).
Qed.

(** C8, amended.  [useBaseline] is read by no computation: setting it
    changes neither the rent suggestion nor the projection.  Of two input
    records that differ only in [occupancy] and [turnover], whatever
    [useBaseline] is, the runs agree on the rent estimate (area label, rent
    per tsubo, floor area, estimated monthly rent), on the food and labor
    rates in force, and on every projection figure that involves neither
    the rent rate nor the baseline revenue. *)
Theorem C8_baseline_inputs_reach :
  forall (s : State) (o t : float) (b : bool),
    let s' := setTurnover t (setOccupancy o s) in
    let rs := rentSuggestion (mount s) in
    let rs' := rentSuggestion (mount s') in
    let n := normalized (mount s) in
    let n' := normalized (mount s') in
    (rentSuggestion (mount (setUseBaseline b s)) = rs
     /\ normalized (mount (setUseBaseline b s)) = n)
    /\ (RentSuggestion.areaLabel rs' = RentSuggestion.areaLabel rs
        /\ RentSuggestion.rentPerTsubo rs' = RentSuggestion.rentPerTsubo rs
        /\ RentSuggestion.tsubo rs' = RentSuggestion.tsubo rs
        /\ RentSuggestion.estimatedRentMonthly rs'
           = RentSuggestion.estimatedRentMonthly rs)
    /\ (Normalized.food n' = Normalized.food n
        /\ Normalized.labor n' = Normalized.labor n
        /\ Normalized.fl n' = Normalized.fl n)
    /\ (Normalized.ppg n' = Normalized.ppg n
        /\ Normalized.seatsN n' = Normalized.seatsN n
        /\ Normalized.addG n' = Normalized.addG n
        /\ Normalized.days n' = Normalized.days n
        /\ Normalized.addRevenueDaily n' = Normalized.addRevenueDaily n
        /\ Normalized.addRevenueMonthly n' = Normalized.addRevenueMonthly n
        /\ Normalized.addGrossProfit n' = Normalized.addGrossProfit n
        /\ Normalized.addAfterFL n' = Normalized.addAfterFL n
        /\ Normalized.roas n' = Normalized.roas n
        /\ Normalized.gpRoas n' = Normalized.gpRoas n
        /\ Normalized.breakevenGroupsPerDay_Gross n'
           = Normalized.breakevenGroupsPerDay_Gross n).
Proof.
  intros s o t b. cbv zeta.
  split.
  - rewrite mount_useBaseline. split; reflexivity.
  - exact (off_agree _ _ (mount_off_baseline s o t)).
Qed.

(** C9, as claimed, fails.  With 25 people per group, outside [1, 20], the
    per-person run counts 20 people and gives 120000 a day where the
    per-group run at 6000 x 25 gives 150000.  And inside the ranges, with a
    price of 0.1 a person, 3 people and 10 groups a day, the per-group run
    at 0.1 x 3 gives 3.0000000000000004 where the per-person run gives 3:
    the products are rounded in a different order. *)
Lemma C9_counterexample :
  let daily := fun ut price ppg addG =>
    Normalized.addRevenueDaily
      (normalized (withPricing ut price ppg addG 26 initialState)) in
  (daily per_group (6000 * 25) 25 1 = 150000
   /\ daily per_person 6000 25 1 = 120000
   /\ daily per_group (6000 * 25) 25 1 <> daily per_person 6000 25 1)
  /\ (daily per_group (0.1 * 3) 3 10 = 3.0000000000000004
      /\ daily per_person 0.1 3 10 = 3
      /\ daily per_group (0.1 * 3) 3 10 <> daily per_person 0.1 3 10).
Proof.
  cbv zeta. repeat split; try (vm_compute; reflexivity);
    intros E; apply Leibniz.eqb_spec in E; vm_compute in E; discriminate.
Qed.

(** The daily and monthly incremental revenue, as functions of the pricing. *)
Lemma addRevenue_withPricing ut price ppg addG days s :
  let n := normalized (withPricing ut price ppg addG days s) in
  Normalized.addRevenueDaily n
  = match ut with
    | per_person => price * clamp addG 0 200 * clamp ppg 1 20
    | per_group => price * clamp addG 0 200
    end
  /\ Normalized.addRevenueMonthly n
     = Normalized.addRevenueDaily n * clamp days 1 31.
Proof.
  cbv zeta. unfold normalized, normalized_of.
  cbn [Normalized.addRevenueDaily Normalized.addRevenueMonthly].
  unfold withPricing, baseline, baseline_of.
  cbn [unitType unitPrice addGroupsPerDay peoplePerGroup daysPerMonth
       setUnitType setUnitPrice setPeoplePerGroup setAddGroupsPerDay
       setDaysPerMonth Baseline.ppg Baseline.days].
  destruct ut; split; reflexivity.
Qed.

(** C9, amended.  For a whole price [p] per person of at most 10^12, a
    whole number [g] of people per group in [1, 20] and a whole number [a]
    of added groups per day in [0, 200], the run priced per group at
    [p * g] and the run priced per person at [p] give the same daily
    incremental revenue, the exact value of [p * g * a], and so the same
    monthly one, whatever the other inputs. *)
Theorem C9_pricing_modes_agree :
  forall (s : State) (p g a : Z) (days : float),
    (0 <= p <= 10 ^ 12)%Z -> (1 <= g <= 20)%Z -> (0 <= a <= 200)%Z ->
    let person :=
      normalized (withPricing per_person (ofInt p) (ofInt g) (ofInt a)
                    days s) in
    let group :=
      normalized (withPricing per_group (ofInt p * ofInt g) (ofInt g)
                    (ofInt a) days s) in
    Normalized.addRevenueDaily group = Normalized.addRevenueDaily person
    /\ Normalized.addRevenueDaily person = ofInt (p * g * a)
    /\ Normalized.addRevenueMonthly group
       = Normalized.addRevenueMonthly person.
Proof.
  intros s p g a days Hp Hg Ha person group.
  assert (B : (2 ^ 53 = 9007199254740992)%Z) by reflexivity.
  assert (T : (10 ^ 12 = 1000000000000)%Z) by reflexivity.
  rewrite T in Hp.
  assert (Hpa : (0 <= p * a <= 200000000000000)%Z) by nia.
  assert (Hpg : (0 <= p * g <= 20000000000000)%Z) by nia.
  assert (Hpag : (0 <= p * a * g <= 4000000000000000)%Z) by nia.
  assert (Hpga : (0 <= p * g * a <= 4000000000000000)%Z) by nia.
  destruct (addRevenue_withPricing per_person (ofInt p) (ofInt g) (ofInt a)
              days s) as [Pd Pm].
  destruct (addRevenue_withPricing per_group (ofInt p * ofInt g) (ofInt g)
              (ofInt a) days s) as [Gd Gm].
  fold person in Pd, Pm. fold group in Gd, Gm.
  assert (P : Normalized.addRevenueDaily person = ofInt (p * g * a)).
  { rewrite Pd, clamp_ofInt_addG, clamp_ofInt_ppg by assumption.
    rewrite (mul_ofInt p a), (mul_ofInt (p * a) g) by lia.
    f_equal. ring. }
  assert (G : Normalized.addRevenueDaily group = ofInt (p * g * a)).
  { rewrite Gd, clamp_ofInt_addG by assumption.
    rewrite (mul_ofInt p g), (mul_ofInt (p * g) a) by lia.
    reflexivity. }
  split; [congruence|]. split; [exact P|].
  rewrite Gm, Pm. congruence.
Qed.

(** C9 on scenario 2: 12000 a group of 2 against 6000 a person, one added
    group a day, 26 days: 12000 a day either way. *)
Lemma C9_pricing_modes_agree_witness :
  Normalized.addRevenueDaily
    (normalized (withPricing per_group 12000 2 1 26 initialState))
  = Normalized.addRevenueDaily
      (normalized (withPricing per_person 6000 2 1 26 initialState))
  /\ Normalized.addRevenueDaily
       (normalized (withPricing per_person 6000 2 1 26 initialState))
     = 12000.
Proof.
  assert (H : (0 <= 6000 <= 10 ^ 12)%Z /\ (1 <= 2 <= 20)%Z
              /\ (0 <= 1 <= 200)%Z)
    by (repeat split; discriminate).
  destruct H as (Hp & Hg & Ha).
  destruct (C9_pricing_modes_agree initialState 6000 2 1 26 Hp Hg Ha)
    as (H1 & H2 & _).
  split; [exact H1|exact H2].
Defined.

(* ================================================================= *)
(** * Further properties of the code *)

(** ** [clamp] on every number *)

Ltac sf_order :=
  repeat match goal with
         | s : bool |- _ => destruct s
         end;
  simpl in *; try discriminate; try reflexivity;
  repeat match goal with
         | H : context [Pos.compare_cont Eq ?x ?y] |- _ =>
             change (Pos.compare_cont Eq x y) with (x ?= y)%positive in H
         | |- context [Pos.compare_cont Eq ?x ?y] =>
             change (Pos.compare_cont Eq x y) with (x ?= y)%positive
         end;
  repeat match goal with
         | H : context [(?x ?= ?y)%Z] |- _ =>
             destruct (Z.compare_spec x y); simpl in *; try discriminate
         | |- context [(?x ?= ?y)%Z] =>
             destruct (Z.compare_spec x y); simpl in *; try discriminate
         end;
  try reflexivity; try lia; subst;
  repeat match goal with
         | H : context [(?x ?= ?y)%positive] |- _ =>
             destruct (Pos.compare_spec x y); simpl in *; try discriminate
         | |- context [(?x ?= ?y)%positive] =>
             destruct (Pos.compare_spec x y); simpl in *; try discriminate
         end;
  try reflexivity; try lia.

(** The comparison of the specification is transitive. *)
Lemma SFcompare_Lt_trans a b c :
  SFcompare a b = Some Lt -> SFcompare b c = Some Lt ->
  SFcompare a c = Some Lt.
Proof.
  intros H1 H2.
  destruct a as [s|s| |s m e], b as [s'|s'| |s' m' e'],
    c as [s''|s''| |s'' m'' e'']; simpl in *; try discriminate; sf_order.
Qed.

Lemma SFcompare_Eq_Lt_trans a b c :
  SFcompare a b = Some Eq -> SFcompare b c = Some Lt ->
  SFcompare a c = Some Lt.
Proof.
  intros H1 H2.
  destruct a as [s|s| |s m e], b as [s'|s'| |s' m' e'],
    c as [s''|s''| |s'' m'' e'']; simpl in *; try discriminate; sf_order.
Qed.

Lemma SFcompare_Lt_Eq_trans a b c :
  SFcompare a b = Some Lt -> SFcompare b c = Some Eq ->
  SFcompare a c = Some Lt.
Proof.
  intros H1 H2.
  destruct a as [s|s| |s m e], b as [s'|s'| |s' m' e'],
    c as [s''|s''| |s'' m'' e'']; simpl in *; try discriminate; sf_order.
Qed.

Lemma SFcompare_Eq_trans a b c :
  SFcompare a b = Some Eq -> SFcompare b c = Some Eq ->
  SFcompare a c = Some Eq.
Proof.
  intros H1 H2.
  destruct a as [s|s| |s m e], b as [s'|s'| |s' m' e'],
    c as [s''|s''| |s'' m'' e'']; simpl in *; try discriminate; sf_order.
Qed.

Lemma ltb_leb_trans x y z :
  (x <? y) = true -> (y <=? z) = true -> (x <? z) = true.
Proof.
  rewrite !ltb_SF, leb_SF. intros H1 H2.
  destruct (SFcompare (Prim2SF x) (Prim2SF y)) as [[]|] eqn:C1;
    try discriminate.
  destruct (SFcompare (Prim2SF y) (Prim2SF z)) as [[]|] eqn:C2;
    try discriminate.
  - rewrite (SFcompare_Lt_Eq_trans _ _ _ C1 C2). reflexivity.
  - rewrite (SFcompare_Lt_trans _ _ _ C1 C2). reflexivity.
Qed.

Lemma leb_ltb_trans x y z :
  (x <=? y) = true -> (y <? z) = true -> (x <? z) = true.
Proof.
  rewrite !ltb_SF, leb_SF. intros H1 H2.
  destruct (SFcompare (Prim2SF y) (Prim2SF z)) as [[]|] eqn:C2;
    try discriminate.
  destruct (SFcompare (Prim2SF x) (Prim2SF y)) as [[]|] eqn:C1;
    try discriminate.
  - rewrite (SFcompare_Eq_Lt_trans _ _ _ C1 C2). reflexivity.
  - rewrite (SFcompare_Lt_trans _ _ _ C1 C2). reflexivity.
Qed.

Lemma ltb_leb x y : (x <? y) = true -> (x <=? y) = true.
Proof.
  rewrite ltb_SF, leb_SF.
  destruct (SFcompare (Prim2SF x) (Prim2SF y)) as [[]|]; congruence.
Qed.

Lemma ltb_asym x y : (x <? y) = true -> (y <? x) = false.
Proof.
  rewrite ltb_SF, gtb_SF.
  destruct (SFcompare (Prim2SF x) (Prim2SF y)) as [[]|]; congruence.
Qed.

Lemma ltb_not_leb x y : (x <? y) = true -> (y <=? x) = false.
Proof.
  rewrite ltb_SF, geb_SF.
  destruct (SFcompare (Prim2SF x) (Prim2SF y)) as [[]|]; congruence.
Qed.

Lemma leb_trans x y z :
  (x <=? y) = true -> (y <=? z) = true -> (x <=? z) = true.
Proof.
  rewrite !leb_SF. intros H1 H2.
  destruct (SFcompare (Prim2SF x) (Prim2SF y)) as [[]|] eqn:C1;
    try discriminate;
    destruct (SFcompare (Prim2SF y) (Prim2SF z)) as [[]|] eqn:C2;
    try discriminate.
  - rewrite (SFcompare_Eq_trans _ _ _ C1 C2). reflexivity.
  - rewrite (SFcompare_Eq_Lt_trans _ _ _ C1 C2). reflexivity.
  - rewrite (SFcompare_Lt_Eq_trans _ _ _ C1 C2). reflexivity.
  - rewrite (SFcompare_Lt_trans _ _ _ C1 C2). reflexivity.
Qed.

(** Inside its bounds [clamp] returns a number equal to its argument, and
    the argument itself unless it is a zero. *)
Lemma clamp_inside n lo hi :
  (lo <=? n) = true -> (n <=? hi) = true ->
  (clamp n lo hi =? n) = true
  /\ ((n =? 0) = false -> clamp n lo hi = n).
Proof.
  intros Hlo Hhi.
  pose proof (leb_not_nan_l _ _ Hlo) as Nlo.
  pose proof (leb_not_nan_r _ _ Hlo) as Nn.
  pose proof (leb_not_nan_r _ _ Hhi) as Nhi.
  assert (R : (n =? n) = true).
  { unfold is_nan in Nn. apply negb_false_iff in Nn. exact Nn. }
  assert (Q : forall a b, SFcompare (Prim2SF a) (Prim2SF b) = Some Eq ->
              (a =? b) = true /\ ((b =? 0) = false -> a = b)).
  { intros a b C. split.
    - rewrite FloatAxioms.eqb_spec. unfold SFeqb. rewrite C. reflexivity.
    - intros Z. apply SFcompare_Eq in C.
      destruct C as [C | (s & s' & C1 & C2)]; [apply Prim2SF_inj, C|].
      rewrite FloatAxioms.eqb_spec, C2 in Z. discriminate. }
  assert (Hmax : (Math_max lo n =? n) = true
                 /\ ((n =? 0) = false -> Math_max lo n = n)).
  { unfold Math_max. rewrite Nlo, Nn. simpl.
    pose proof (ltb_SF lo n) as L. pose proof (gtb_SF lo n) as G.
    rewrite leb_SF in Hlo.
    destruct (SFcompare (Prim2SF lo) (Prim2SF n)) as [[]|] eqn:C;
      try discriminate; rewrite L, ?G; auto.
    destruct (get_sign lo); auto. }
  destruct Hmax as [M1 M2].
  unfold clamp.
  assert (Nm : is_nan (Math_max lo n) = false).
  { unfold is_nan. apply negb_false_iff.
    rewrite FloatAxioms.eqb_spec in M1 |- *. unfold SFeqb in *.
    destruct (Prim2SF (Math_max lo n)) eqn:E; try discriminate;
      rewrite SFcompare_refl; congruence. }
  assert (Mle : (Math_max lo n <=? hi) = true).
  { rewrite leb_SF in Hhi |- *. rewrite FloatAxioms.eqb_spec in M1.
    unfold SFeqb in M1.
    destruct (SFcompare (Prim2SF (Math_max lo n)) (Prim2SF n)) as [[]|] eqn:C;
      try discriminate.
    destruct (SFcompare (Prim2SF n) (Prim2SF hi)) as [[]|] eqn:C';
      try discriminate.
    - rewrite (SFcompare_Eq_trans _ _ _ C C'). reflexivity.
    - rewrite (SFcompare_Eq_Lt_trans _ _ _ C C'). reflexivity. }
  assert (Hmin : Math_min hi (Math_max lo n) = Math_max lo n
                 \/ (Math_min hi (Math_max lo n) = hi
                     /\ SFcompare (Prim2SF hi) (Prim2SF (Math_max lo n))
                        = Some Eq)).
  { unfold Math_min. rewrite Nhi, Nm. simpl.
    pose proof (ltb_SF hi (Math_max lo n)) as L.
    pose proof (gtb_SF hi (Math_max lo n)) as G.
    rewrite geb_SF in Mle.
    destruct (SFcompare (Prim2SF hi) (Prim2SF (Math_max lo n))) as [[]|] eqn:C;
      try discriminate; rewrite L, ?G; auto.
    destruct (get_sign hi); auto. }
  destruct Hmin as [-> | [-> C]]; [split; assumption|].
  rewrite FloatAxioms.eqb_spec in M1. unfold SFeqb in M1.
  destruct (SFcompare (Prim2SF (Math_max lo n)) (Prim2SF n)) as [[]|] eqn:C';
    try discriminate.
  apply Q. apply (SFcompare_Eq_trans _ _ _ C C').
Qed.

(** Below its lower bound [clamp] returns the lower bound, above its upper
    bound the upper bound. *)
Lemma clamp_outside n lo hi :
  (lo <? hi) = true ->
  ((n <? lo) = true -> clamp n lo hi = lo)
  /\ ((hi <? n) = true -> clamp n lo hi = hi).
Proof.
  intros H.
  pose proof (ltb_not_nan_l _ _ H) as Nlo.
  pose proof (ltb_not_nan_r _ _ H) as Nhi.
  split; intros Hn.
  - pose proof (ltb_not_nan_l _ _ Hn) as Nn.
    unfold clamp, Math_max. rewrite Nlo, Nn, (ltb_asym _ _ Hn), Hn. simpl.
    unfold Math_min. rewrite Nhi, Nlo, (ltb_asym _ _ H), H. reflexivity.
  - pose proof (ltb_not_nan_r _ _ Hn) as Nn.
    pose proof (leb_ltb_trans lo hi n (ltb_leb _ _ H) Hn) as L.
    unfold clamp, Math_max. rewrite Nlo, Nn, L. simpl.
    unfold Math_min. rewrite Nhi, Nn, Hn. reflexivity.
Qed.

(** X1.  [clamp n lo hi], the [Math.min(hi, Math.max(lo, n))] of the
    source, on every number [n] and every pair of bounds with [lo < hi]:
    a NaN stays a NaN; a number below [lo] gives [lo] and a number above
    [hi] gives [hi]; a number between the bounds gives a number equal to
    itself, and itself unless it is a zero (whose sign can change when a
    bound is a zero); and the result of a number is always between the
    bounds. *)
Theorem X1_clamp_cases :
  forall n lo hi : float,
    (lo <? hi) = true ->
    (is_nan n = true -> clamp n lo hi = nan)
    /\ ((n <? lo) = true -> clamp n lo hi = lo)
    /\ ((hi <? n) = true -> clamp n lo hi = hi)
    /\ ((lo <=? n) = true -> (n <=? hi) = true ->
        (clamp n lo hi =? n) = true
        /\ ((n =? 0) = false -> clamp n lo hi = n))
    /\ (is_nan n = false ->
        (lo <=? clamp n lo hi) = true /\ (clamp n lo hi <=? hi) = true).
Proof.
  intros n lo hi H.
  destruct (clamp_outside n lo hi H) as [L U].
  split; [apply clamp_nan|]. split; [exact L|]. split; [exact U|].
  split; [apply clamp_inside|].
  intros Nn.
  destruct (clamp_bounds n lo hi Nn (ltb_not_nan_l _ _ H)
              (ltb_not_nan_r _ _ H) (ltb_leb _ _ H)) as (_ & B1 & B2).
  split; assumption.
Qed.

(** X1 on the bounds of the added groups a day: 250 gives 200, -3 gives 0
    and 7 gives 7. *)
Lemma X1_clamp_cases_witness :
  clamp 250 0 200 = 200 /\ clamp (-3) 0 200 = 0 /\ clamp 7 0 200 = 7.
Proof.
  destruct (X1_clamp_cases 250 0 200 eq_refl) as (_ & _ & U & _).
  destruct (X1_clamp_cases (-3) 0 200 eq_refl) as (_ & L & _).
  destruct (X1_clamp_cases 7 0 200 eq_refl) as (_ & _ & _ & I & _).
  split; [exact (U eq_refl)|]. split; [exact (L eq_refl)|].
  exact (proj2 (I eq_refl eq_refl) eq_refl).
Defined.

(** ** The rent estimate is never negative *)

(** Rounding a non-negative mantissa keeps the sign it is given. *)
Lemma binary_round_aux_sign s m e l :
  (0 <= m)%Z ->
  match binary_round_aux prec emax s m e l with
  | S754_zero s' | S754_infinity s' | S754_finite s' _ _ => s' = s
  | S754_nan => False
  end.
Proof.
  intros Hm. unfold binary_round_aux.
  destruct (shr_fexp prec emax m e l) as [r1 e1] eqn:E1.
  pose proof (shr_fexp_bound m e l (Zdigits2 m) e Hm ltac:(lia) ltac:(lia))
    as [B1 _].
  rewrite E1 in B1. simpl in B1.
  pose proof (round_nearest_even_bound (shr_m r1) (loc_of_shr_record r1)
                ltac:(lia)) as B2.
  set (m2 := round_nearest_even (shr_m r1) (loc_of_shr_record r1)) in *.
  destruct (shr_fexp prec emax m2 e1 loc_Exact) as [r3 e3] eqn:E3.
  pose proof (shr_fexp_bound m2 e1 loc_Exact (Zdigits2 m2) e1 ltac:(lia)
                ltac:(lia) ltac:(lia)) as [B3 _].
  rewrite E3 in B3. simpl in B3.
  destruct (shr_m r3) as [|q|q]; try lia; try reflexivity.
  destruct (e3 <=? emax - prec)%Z; reflexivity.
Qed.

Lemma SFmul_nonneg x y Ex Ey :
  valid_binary x = true -> valid_binary y = true ->
  SFbounded Ex x -> SFbounded Ey y -> SFnonneg x -> SFnonneg y ->
  (-1074 <= Ex + Ey)%Z -> (Ex + Ey + 107 <= 971)%Z ->
  SFnonneg (SF64mul x y).
Proof.
  intros Vx Vy Bx By Nx Ny Hlo Hhi.
  pose proof (SFmul_bounded x y Ex Ey Vx Vy Bx By Hlo Hhi) as B.
  destruct x as [sx|sx| |sx mx ex], y as [sy|sy| |sy my ey];
    simpl in Nx, Ny; try contradiction; try exact I.
  destruct sx, sy; try contradiction.
  unfold SF64mul, SFmul in *. simpl xorb in *.
  pose proof (binary_round_aux_sign false (Z.pos (mx * my)) (ex + ey)
                loc_Exact ltac:(lia)) as S.
  destruct (binary_round_aux prec emax false (Z.pos (mx * my)) (ex + ey)
              loc_Exact) as [s|s| |s m e]; simpl in B; try contradiction.
  - exact I.
  - subst s. exact I.
Qed.

Lemma SFdiv_nonneg sx mx ex my ey K :
  valid_binary (S754_finite sx mx ex) = true ->
  valid_binary (S754_finite false my ey) = true ->
  SFnonneg (S754_finite sx mx ex) ->
  (ex - ey <= K)%Z -> (-1074 <= K)%Z -> (K + 215 <= 971)%Z ->
  SFnonneg (SF64div (S754_finite sx mx ex) (S754_finite false my ey)).
Proof.
  intros Vx Vy Nx HK Hlo Hhi.
  pose proof (SFdiv_finite_bounded sx mx ex false my ey K Vx Vy HK Hlo Hhi)
    as B.
  destruct sx; simpl in Nx; try contradiction.
  unfold SF64div, SFdiv in *. simpl xorb in *.
  pose proof (SFdiv_core_bound mx ex my ey) as C.
  apply valid_finite in Vx, Vy.
  specialize (C ltac:(lia) ltac:(lia)).
  destruct (SFdiv_core_binary prec emax (Z.pos mx) ex (Z.pos my) ey)
    as [[q e'] l].
  destruct C as (Hq & _ & _).
  pose proof (binary_round_aux_sign false q e' l Hq) as S.
  destruct (binary_round_aux prec emax false q e' l) as [s|s| |s m e];
    simpl in B; try contradiction.
  - exact I.
  - subst s. exact I.
Qed.

(** On the side of the floats: finite and at least zero. *)
Lemma nonneg_finite x E :
  SFbounded E (Prim2SF x) -> SFnonneg (Prim2SF x) ->
  is_finite x = true /\ (0 <=? x) = true.
Proof.
  intros B N. unfold is_finite, is_infinity.
  rewrite leb_SF, FloatAxioms.eqb_spec, abs_spec.
  replace (Prim2SF 0) with (S754_zero false) by reflexivity.
  replace (Prim2SF infinity) with (S754_infinity false) by reflexivity.
  assert (Nn : is_nan x = false).
  { apply is_nan_false. intros E'. rewrite E' in B. exact B. }
  rewrite Nn.
  destruct (Prim2SF x) as [s|s| |s m e]; simpl in B, N; try contradiction.
  - split; reflexivity.
  - destruct s; try contradiction. split; reflexivity.
Qed.

Lemma tsubo_nonneg seats seatsPerTsubo :
  SFnonneg
    (Prim2SF (safeDiv (clamp seats 0 500) (clamp seatsPerTsubo 0.8 4.0))).
Proof.
  unfold safeDiv, Number_isFinite.
  set (a := clamp seats 0 500). set (b := clamp seatsPerTsubo 0.8 4.0).
  destruct (is_finite a) eqn:Fa; simpl; [|exact I].
  destruct (is_finite b) eqn:Fb; simpl; [|exact I].
  destruct (b =? 0) eqn:Zb; simpl; [exact I|].
  apply is_finite_not_nan in Fa, Fb.
  pose proof (clamp_not_nan_inv _ _ _ Fa) as Ns.
  pose proof (clamp_not_nan_inv _ _ _ Fb) as Nt.
  destruct (clamp_bounds seats 0 500 Ns eq_refl eq_refl eq_refl)
    as (_ & A0 & A1).
  destruct (clamp_bounds seatsPerTsubo 0.8 4.0 Nt eq_refl eq_refl eq_refl)
    as (_ & B0 & B1).
  fold a in A0, A1. fold b in B0, B1.
  pose proof (between_bounded a 500 8796093022208000 (-44) eq_refl A0 A1)
    as Ba.
  destruct (between_exponent b 0.8 4.0 7205759403792794 (-53)
              4503599627370496 (-50) eq_refl eq_refl B0 B1)
    as (mb & eb & Eb & Hb).
  rewrite FloatAxioms.div_spec, Eb.
  pose proof (Prim2SF_valid a) as Va. pose proof (Prim2SF_valid b) as Vb.
  rewrite Eb in Vb.
  rewrite leb_SF in A0.
  replace (Prim2SF 0) with (S754_zero false) in A0 by reflexivity.
  destruct (Prim2SF a) as [s|s| |s ma ea]; cbn [SFbounded] in Ba;
    try contradiction.
  - exact I.
  - destruct s; [discriminate|].
    apply (SFdiv_nonneg false ma ea mb eb 9); auto; try exact I; lia.
Qed.

Lemma rentPerTsubo_positive area stationDistance tradeArea :
  let r := baseRentPerTsubo (getArea area)
           * STATION_DISTANCE stationDistance * TRADE_AREA tradeArea in
  is_finite r = true /\ (0 <? r) = true
  /\ SFnonneg (Prim2SF r).
Proof.
  destruct area, stationDistance, tradeArea; vm_compute; auto.
Qed.

(** X2.  Whatever the seat count, the seats per tsubo and the baseline
    revenue are (any double, NaN and the infinities included), and for every
    area, station distance and trade area, the figures of the rent estimate
    are finite: the floor area is finite and at least zero, the rent per
    tsubo is finite and positive, the estimated monthly rent is finite and
    at least zero, and the suggested rent ratio is finite. *)
Theorem X2_rent_estimate_finite :
  forall (area : AreaKey) (stationDistance : StationDistanceKey)
         (tradeArea : TradeAreaKey)
         (seats seatsPerTsubo baselineMonthlyRevenue : float),
    let rs := rentSuggestion_of area stationDistance tradeArea seats
                seatsPerTsubo baselineMonthlyRevenue in
    (Number_isFinite (RentSuggestion.tsubo rs) = true
     /\ (0 <=? RentSuggestion.tsubo rs) = true)
    /\ (Number_isFinite (RentSuggestion.rentPerTsubo rs) = true
        /\ (0 <? RentSuggestion.rentPerTsubo rs) = true)
    /\ (Number_isFinite (RentSuggestion.estimatedRentMonthly rs) = true
        /\ (0 <=? RentSuggestion.estimatedRentMonthly rs) = true)
    /\ Number_isFinite (RentSuggestion.rentRateSuggested rs) = true.
Proof.
  intros area sd ta seats spt bs rs.
  pose proof (tsubo_bounded seats spt) as Bt.
  pose proof (tsubo_nonneg seats spt) as Nt.
  destruct (rentPerTsubo_positive area sd ta) as (Fr & Pr & Nr).
  pose proof (rentPerTsubo_bounded area sd ta) as Br.
  split; [|split; [|split]].
  - exact (nonneg_finite _ 224 Bt Nt).
  - split; assumption.
  - apply (nonneg_finite _ 331).
    + apply (estimatedRentMonthly_bounded area sd ta seats spt bs).
    + unfold rs, rentSuggestion_of.
      cbn [RentSuggestion.estimatedRentMonthly].
      rewrite FloatAxioms.mul_spec.
      apply (SFmul_nonneg _ _ 224 0); try apply Prim2SF_valid; auto; lia.
  - destruct (rentRateSuggested_range area sd ta seats spt bs) as [H0 H1].
    fold rs in H0, H1.
    pose proof (between_bounded _ 0.35 6305039478318694 (-54) eq_refl H0 H1)
      as B.
    apply (nonneg_finite _ (-54) B).
    rewrite leb_SF in H0.
    replace (Prim2SF 0) with (S754_zero false) in H0 by reflexivity.
    destruct (Prim2SF (RentSuggestion.rentRateSuggested rs)) as [s|s| |s m e];
      cbn [SFbounded] in B; try contradiction; [exact I|].
    destruct s; [discriminate|exact I].
Qed.

(** ** The ratios over the advertising spend *)

(** Safe division of a zero is a zero. *)
Lemma safeDiv_zero_l a b : (a =? 0) = true -> (safeDiv a b =? 0) = true.
Proof.
  intros Ha. unfold safeDiv.
  destruct (Number_isFinite a) eqn:Fa; simpl; [|reflexivity].
  destruct (Number_isFinite b) eqn:Hb; simpl; [|reflexivity].
  destruct (b =? 0) eqn:Hz; [reflexivity|].
  rewrite FloatAxioms.eqb_spec in Ha |- *. rewrite FloatAxioms.div_spec.
  pose proof (is_finite_bounded b Hb) as Bb.
  pose proof (eqb_zero_SF b Hz) as Nz.
  replace (Prim2SF 0) with (S754_zero false) in * by reflexivity.
  destruct (Prim2SF a) as [sa|sa| |sa ma ea]; try discriminate;
    try (destruct sa; discriminate).
  destruct (Prim2SF b) as [s|s| |s m e]; cbn [SFbounded] in Bb;
    try contradiction.
  - exfalso. apply (Nz s). reflexivity.
  - reflexivity.
Qed.

(** X3.  On every state the ROAS, the gross-profit ROAS and the break-even
    number of groups per day are never NaN.  With an advertising spend that
    is zero or not finite the ROAS and the gross-profit ROAS are 0; with an
    advertising spend of zero the break-even number is a zero, and with one
    that is not finite it is 0. *)
Theorem X3_ad_ratios_defined :
  forall s : State,
    let n := normalized s in
    (is_nan (Normalized.roas n) = false
     /\ is_nan (Normalized.gpRoas n) = false
     /\ is_nan (Normalized.breakevenGroupsPerDay_Gross n) = false)
    /\ ((adSpend s =? 0) = true \/ Number_isFinite (adSpend s) = false ->
        Normalized.roas n = 0 /\ Normalized.gpRoas n = 0)
    /\ ((adSpend s =? 0) = true ->
        (Normalized.breakevenGroupsPerDay_Gross n =? 0) = true)
    /\ (Number_isFinite (adSpend s) = false ->
        Normalized.breakevenGroupsPerDay_Gross n = 0).
Proof.
  intros s n. split; [|split; [|split]].
  - repeat split; apply safeDiv_not_nan.
  - intros H.
    assert (G : forall x, safeDiv x (adSpend s) = 0).
    { intros x. unfold safeDiv. destruct H as [H|H]; rewrite H;
        rewrite ?orb_true_r; reflexivity. }
    split; apply G.
  - intros H. apply safeDiv_zero_l, H.
  - intros H. unfold n, normalized, normalized_of.
    cbn [Normalized.breakevenGroupsPerDay_Gross].
    unfold safeDiv. rewrite H. reflexivity.
Qed.

(** ** The area master and the resolver *)

(** X4.  [getArea] finds, for every area key, the row of [AREA_MASTER]
    with that key: the search of the source always succeeds, so its fallback
    to the first row is never needed; the row found is in the table and
    carries the key asked for, it is the only row with that key, and no two
    rows share a key. *)
Theorem X4_getArea_lookup :
  forall k : AreaKey,
    find (fun x => AreaKey_eqb (key x) k) AREA_MASTER = Some (getArea k)
    /\ In (getArea k) AREA_MASTER
    /\ key (getArea k) = k
    /\ (forall x, In x AREA_MASTER -> key x = k -> x = getArea k)
    /\ NoDup (map key AREA_MASTER).
Proof.
  intros k. split; [|split; [|split; [|split]]].
  - destruct k; reflexivity.
  - destruct k; cbv [getArea find AREA_MASTER AreaKey_eqb key In];
      auto 10.
  - destruct k; reflexivity.
  - intros x Hx Hk. unfold AREA_MASTER in Hx. cbn [In] in Hx.
    destruct Hx as [<-|[<-|[<-|[<-|[<-|[<-|[<-|[<-|[]]]]]]]]];
      cbn [key AREA_MASTER_0] in Hk; subst k; reflexivity.
  - cbn [map AREA_MASTER key AREA_MASTER_0].
    repeat constructor; cbn [In]; intuition discriminate.
Qed.

Lemma trimStart_ws_app w x :
  allWhiteSpace w = true -> trimStart (w ++ x) = trimStart x.
Proof.
  induction w as [|c w IH]; simpl; auto.
  intros H. apply andb_true_iff in H. destruct H as [Hc Hw].
  rewrite Hc. auto.
Qed.

Lemma trimStart_nil_ws a : trimStart a = [] -> allWhiteSpace a = true.
Proof.
  induction a as [|c a IH]; simpl; auto.
  destruct (isWhiteSpace c); [auto|discriminate].
Qed.

Lemma trimStart_ws_nil a : allWhiteSpace a = true -> trimStart a = [].
Proof.
  intros H. rewrite <- (app_nil_r a). rewrite trimStart_ws_app; auto.
Qed.

Lemma trimStart_app a w :
  trimStart a <> [] -> trimStart (a ++ w) = trimStart a ++ w.
Proof.
  induction a as [|c a IH]; simpl; [congruence|].
  destruct (isWhiteSpace c); auto.
Qed.

Lemma allWhiteSpace_rev w : allWhiteSpace (rev w) = allWhiteSpace w.
Proof.
  unfold allWhiteSpace. apply eq_true_iff_eq. rewrite !forallb_forall.
  split; intros H c Hc; apply H.
  - apply in_rev in Hc. exact Hc.
  - apply in_rev. exact Hc.
Qed.

Lemma allWhiteSpace_app a b :
  allWhiteSpace (a ++ b) = allWhiteSpace a && allWhiteSpace b.
Proof. unfold allWhiteSpace. apply forallb_app. Qed.

Lemma trimEnd_app_ws x w :
  allWhiteSpace w = true -> trimEnd (x ++ w) = trimEnd x.
Proof.
  intros H. unfold trimEnd. rewrite rev_app_distr, trimStart_ws_app; auto.
  rewrite allWhiteSpace_rev. exact H.
Qed.

(** Padding an address with white space does not change what [trim]
    leaves. *)
Lemma trim_padded pre a post :
  allWhiteSpace pre = true -> allWhiteSpace post = true ->
  trim (pre ++ a ++ post) = trim a.
Proof.
  intros Hpre Hpost. unfold trim. rewrite trimStart_ws_app by exact Hpre.
  destruct (trimStart a) as [|c r] eqn:E.
  - rewrite trimStart_ws_nil; [reflexivity|].
    rewrite allWhiteSpace_app, (trimStart_nil_ws a E), Hpost. reflexivity.
  - rewrite trimStart_app by congruence. rewrite E.
    apply trimEnd_app_ws, Hpost.
Qed.

(** X5.  White space before and after an address does not change the area
    the resolver finds, on [AREA_MASTER] and on every table; an address of
    white space only resolves to nothing. *)
Theorem X5_detect_ignores_padding :
  forall (tiers : list AreaMaster) (pre address post : jsstring),
    allWhiteSpace pre = true -> allWhiteSpace post = true ->
    detectAreaIn tiers (pre ++ address ++ post) = detectAreaIn tiers address
    /\ detectAreaFromAddress (pre ++ address ++ post)
       = detectAreaFromAddress address
    /\ (allWhiteSpace address = true ->
        detectAreaIn tiers (pre ++ address ++ post) = None).
Proof.
  intros tiers pre address post Hpre Hpost.
  assert (E : forall ts, detectAreaIn ts (pre ++ address ++ post)
                         = detectAreaIn ts address).
  { intros ts. unfold detectAreaIn. rewrite trim_padded by assumption.
    reflexivity. }
  split; [apply E|]. split; [apply E|].
  intros Ha. rewrite E. unfold detectAreaIn, trim.
  rewrite (trimStart_ws_nil address Ha). reflexivity.
Qed.

(** X5 on an address of Tenri between ideographic and plain spaces. *)
Lemma X5_detect_ignores_padding_witness :
  detectAreaFromAddress (utf16 "　 奈良県天理市　")
  = detectAreaFromAddress (utf16 "奈良県天理市")
  /\ detectAreaFromAddress (utf16 "奈良県天理市") = Some regional_city.
Proof.
  split; [|reflexivity].
  exact (proj1 (proj2
           (X5_detect_ignores_padding AREA_MASTER (utf16 "　 ")
              (utf16 "奈良県天理市") (utf16 "　") eq_refl eq_refl))).
Defined.



(** ** What the effects write, and when they come to rest *)

(** [Object.is] holds of identical numbers only. *)
Lemma Object_is_eq x y : Object_is x y = true -> x = y.
Proof.
  unfold Object_is. destruct (is_nan x) eqn:Nx.
  - intros Ny. apply is_nan_spec in Nx, Ny. apply Prim2SF_inj. congruence.
  - intros H. apply andb_true_iff in H. destruct H as [E S].
    apply eqb_prop in S.
    rewrite FloatAxioms.eqb_spec in E. unfold SFeqb in E.
    destruct (SFcompare (Prim2SF x) (Prim2SF y)) as [[]|] eqn:C;
      try discriminate.
    apply SFcompare_Eq in C. destruct C as [C | (s & s' & C1 & C2)].
    + apply Prim2SF_inj, C.
    + apply Prim2SF_inj. rewrite C1, C2.
      apply get_sign_zero in C1, C2. congruence.
Qed.

(** The rounds after the first run the auto-rent effect at most. *)
Lemma second_round_eq prev s :
  let s1 := runEffects prev s in
  runEffects (Some s) s1
  = if changedAutoRent (Some s) s1 then effectAutoRent s1 s1 else s1.
Proof.
  cbv zeta. set (s1 := runEffects prev s).
  pose proof (runEffects_inputs prev s) as I. cbv zeta in I. fold s1 in I.
  destruct I as (A & B & C & _ & _ & _ & _ & _ & _ & _ & _ & _ & _ & D & _).
  unfold runEffects at 1.
  unfold changedDetectArea, changedSyncPreset.
  rewrite A, B, C, D.
  rewrite jsstring_eqb_refl, !eqb_reflx, IndustryKey_eqb_refl,
    ScenarioKey_eqb_refl. reflexivity.
Qed.

(** The auto-rent effect, on the state it read. *)
Lemma effectAutoRent_self x :
  effectAutoRent x x = x
  \/ (manualRates x = false /\ autoSetRentRate x = true
      /\ (suggested x <=? 0) = false
      /\ effectAutoRent x x = setRentRate (suggested x) x).
Proof.
  unfold effectAutoRent. fold (suggested x).
  destruct (autoSetRentRate x); simpl; auto.
  destruct (manualRates x); auto.
  destruct (suggested x <=? 0); auto.
Qed.

(** What a later round leaves: the state, or the state with the suggestion
    as rent rate. *)
Lemma later_round_cases (c : bool) (x : State) :
  let y := if c then effectAutoRent x x else x in
  (y = x \/ y = setRentRate (suggested x) x)
  /\ area y = area x /\ foodRate y = foodRate x
  /\ laborRate y = laborRate x /\ suggested y = suggested x
  /\ manualRates y = manualRates x /\ autoSetRentRate y = autoSetRentRate x
  /\ presetRates y = presetRates x.
Proof.
  cbv zeta. destruct c.
  - destruct (effectAutoRent_self x) as [E | [_ [_ [_ E]]]]; rewrite E;
      repeat split; auto.
  - repeat split; auto.
Qed.

(** Any number of rounds leaves the inputs alone. *)
Lemma settle_inputs n : forall prev s,
  let s' := settle n prev s in
  address s' = address s /\ industry s' = industry s
  /\ scenario s' = scenario s /\ unitType s' = unitType s
  /\ unitPrice s' = unitPrice s /\ peoplePerGroup s' = peoplePerGroup s
  /\ addGroupsPerDay s' = addGroupsPerDay s /\ seats s' = seats s
  /\ adSpend s' = adSpend s /\ daysPerMonth s' = daysPerMonth s
  /\ useBaseline s' = useBaseline s /\ turnover s' = turnover s
  /\ occupancy s' = occupancy s /\ autoDetectArea s' = autoDetectArea s
  /\ stationDistance s' = stationDistance s /\ tradeArea s' = tradeArea s
  /\ seatsPerTsubo s' = seatsPerTsubo s
  /\ autoSetRentRate s' = autoSetRentRate s
  /\ manualRates s' = manualRates s.
Proof.
  induction n as [|n IH]; intros prev s; cbn [settle].
  - cbv zeta. repeat split; reflexivity.
  - specialize (IH (Some s) (runEffects prev s)). cbv zeta in IH |- *.
    pose proof (runEffects_inputs prev s) as I. cbv zeta in I.
    destruct IH as (A1 & A2 & A3 & A4 & A5 & A6 & A7 & A8 & A9 & A10 & A11
                    & A12 & A13 & A14 & A15 & A16 & A17 & A18 & A19).
    destruct I as (B1 & B2 & B3 & B4 & B5 & B6 & B7 & B8 & B9 & B10 & B11
                   & B12 & B13 & B14 & B15 & B16 & B17 & B18 & B19).
    rewrite A1, A2, A3, A4, A5, A6, A7, A8, A9, A10, A11, A12, A13, A14,
      A15, A16, A17, A18, A19.
    repeat split; assumption.
Qed.

(** X7.  The effects write the area and the three rates only: after any
    number of rounds, from any previous render, the nineteen other state
    cells are those of the start, and so are the baseline estimate and the
    incremental revenue (daily and monthly), which read none of the four
    cells written. *)
Theorem X7_effects_write_area_and_rates_only :
  forall (n : nat) (prev : option State) (s : State),
    let s' := settle n prev s in
    (address s' = address s /\ industry s' = industry s
     /\ scenario s' = scenario s /\ unitType s' = unitType s
     /\ unitPrice s' = unitPrice s /\ peoplePerGroup s' = peoplePerGroup s
     /\ addGroupsPerDay s' = addGroupsPerDay s /\ seats s' = seats s
     /\ adSpend s' = adSpend s /\ daysPerMonth s' = daysPerMonth s
     /\ useBaseline s' = useBaseline s /\ turnover s' = turnover s
     /\ occupancy s' = occupancy s /\ autoDetectArea s' = autoDetectArea s
     /\ stationDistance s' = stationDistance s /\ tradeArea s' = tradeArea s
     /\ seatsPerTsubo s' = seatsPerTsubo s
     /\ autoSetRentRate s' = autoSetRentRate s
     /\ manualRates s' = manualRates s)
    /\ baseline s' = baseline s
    /\ Normalized.addRevenueDaily (normalized s')
       = Normalized.addRevenueDaily (normalized s)
    /\ Normalized.addRevenueMonthly (normalized s')
       = Normalized.addRevenueMonthly (normalized s).
Proof.
  intros n prev s s'.
  pose proof (settle_inputs n prev s) as I. cbv zeta in I. fold s' in I.
  split; [exact I|].
  destruct I as (B1 & B2 & B3 & B4 & B5 & B6 & B7 & B8 & B9 & B10 & B11
                 & B12 & B13 & B14 & B15 & B16 & B17 & B18 & B19).
  assert (Hb : baseline s' = baseline s).
  { unfold baseline. rewrite B4, B5, B6, B8, B10, B12, B13. reflexivity. }
  split; [exact Hb|].
  unfold normalized, normalized_of.
  cbn [Normalized.addRevenueDaily Normalized.addRevenueMonthly].
  rewrite Hb, B4, B5, B7. split; reflexivity.
Qed.

(** Two rounds, spelled out. *)
Lemma settle_2_eq prev s :
  settle 2 prev s
  = if changedAutoRent (Some s) (runEffects prev s)
    then effectAutoRent (runEffects prev s) (runEffects prev s)
    else runEffects prev s.
Proof. cbn [settle]. apply second_round_eq. Qed.

(** The auto-rent effect writes the suggestion when it is on, manual is off
    and the suggestion is positive. *)
Lemma effectAutoRent_fires x acc :
  manualRates x = false -> autoSetRentRate x = true ->
  (0 <? suggested x) = true ->
  effectAutoRent x acc = setRentRate (suggested x) acc.
Proof.
  intros M A P. unfold effectAutoRent. fold (suggested x).
  rewrite M, A, (ltb_not_leb _ _ P). reflexivity.
Qed.

(** The first round, on the area and on the three rates. *)
Lemma first_round_area prev s :
  area (runEffects prev s)
  = if changedDetectArea prev s
    then (if autoDetectArea s
          then match detectAreaFromAddress (address s) with
               | Some k => k
               | None => area s
               end
          else area s)
    else area s.
Proof.
  unfold runEffects, effectDetectArea, effectSyncPreset, effectAutoRent.
  repeat match goal with
         | |- context [if ?b then _ else _] => destruct b eqn:?
         | |- context [match detectAreaFromAddress ?a with _ => _ end] =>
             destruct (detectAreaFromAddress a) eqn:?
         end; try reflexivity; simpl in *; congruence.
Qed.

Lemma first_round_food_labor prev s :
  manualRates s = false ->
  let s1 := runEffects prev s in
  foodRate s1 = (if changedSyncPreset prev s then food (presetRates s)
                 else foodRate s)
  /\ laborRate s1 = (if changedSyncPreset prev s then labor (presetRates s)
                     else laborRate s).
Proof.
  intros M. cbv zeta.
  unfold runEffects, effectDetectArea, effectSyncPreset, effectAutoRent.
  rewrite M. cbn [negb].
  repeat match goal with
         | |- context [if ?b then _ else _] => destruct b eqn:?
         | |- context [match detectAreaFromAddress ?a with _ => _ end] =>
             destruct (detectAreaFromAddress a) eqn:?
         end; split; reflexivity.
Qed.

Lemma first_round_rent prev s :
  manualRates s = false -> autoSetRentRate s = true ->
  (0 <? suggested s) = true ->
  rentRate (runEffects prev s)
  = if changedSyncPreset prev s || changedAutoRent prev s
    then suggested s else rentRate s.
Proof.
  intros M A P.
  unfold runEffects, effectDetectArea, effectSyncPreset, effectAutoRent.
  fold (suggested s). rewrite M, A, P, (ltb_not_leb _ _ P). cbn [negb andb].
  repeat match goal with
         | |- context [if ?b then _ else _] => destruct b eqn:?
         | |- context [match detectAreaFromAddress ?a with _ => _ end] =>
             destruct (detectAreaFromAddress a) eqn:?
         end; try reflexivity; simpl in *; congruence.
Qed.

Lemma first_round_rent_off prev s :
  manualRates s = false -> autoSetRentRate s = false ->
  rentRate (runEffects prev s)
  = if changedSyncPreset prev s then rent (presetRates s) else rentRate s.
Proof.
  intros M A.
  unfold runEffects, effectDetectArea, effectSyncPreset, effectAutoRent.
  rewrite M, A. cbn [negb andb].
  repeat match goal with
         | |- context [if ?b then _ else _] => destruct b eqn:?
         | |- context [match detectAreaFromAddress ?a with _ => _ end] =>
             destruct (detectAreaFromAddress a) eqn:?
         end; try reflexivity; simpl in *; congruence.
Qed.

(** Two rounds put the rent rate in sync, if it was whenever the first
    round runs neither effect that writes it. *)
Lemma rentInSync_settle prev s :
  (manualRates s = false -> autoSetRentRate s = true ->
   (0 <? suggested s) = true ->
   changedSyncPreset prev s || changedAutoRent prev s = false ->
   rentRate s = suggested s) ->
  rentInSync (settle 2 prev s).
Proof.
  intros H. rewrite settle_2_eq. set (s1 := runEffects prev s).
  pose proof (runEffects_inputs prev s) as I. cbv zeta in I. fold s1 in I.
  destruct I as (_ & _ & _ & _ & _ & _ & _ & _ & _ & _ & _ & _ & _ & _ & _
                 & _ & _ & IA & IM).
  destruct (later_round_cases (changedAutoRent (Some s) s1) s1)
    as (_ & _ & _ & _ & Sg & Mn & Au & _).
  unfold rentInSync. rewrite Sg, Mn, Au. intros M A P.
  destruct (changedAutoRent (Some s) s1) eqn:C.
  - rewrite (effectAutoRent_fires s1 s1 M A P). reflexivity.
  - unfold changedAutoRent in C. rewrite IA, IM, !eqb_reflx in C.
    cbn [andb] in C. apply negb_false_iff, Object_is_eq in C.
    fold (suggested s) in C. fold (suggested s1) in C.
    rewrite IM in M. rewrite IA in A. rewrite <- C in P |- *.
    unfold s1. rewrite (first_round_rent prev s M A P).
    destruct (changedSyncPreset prev s || changedAutoRent prev s) eqn:R;
      auto.
Qed.

(** Two rounds put the food and labor rates in sync, if they were whenever
    the first round does not run the preset effect. *)
Lemma presetInSync_settle prev s :
  (manualRates s = false -> changedSyncPreset prev s = false ->
   foodRate s = food (presetRates s)
   /\ laborRate s = labor (presetRates s)) ->
  presetInSync (settle 2 prev s).
Proof.
  intros H. rewrite settle_2_eq. set (s1 := runEffects prev s).
  pose proof (runEffects_inputs prev s) as I. cbv zeta in I. fold s1 in I.
  destruct I as (_ & I1 & I2 & _ & _ & _ & _ & _ & _ & _ & _ & _ & _ & _ & _
                 & _ & _ & IA & IM).
  destruct (later_round_cases (changedAutoRent (Some s) s1) s1)
    as (_ & _ & Fd & Lb & _ & Mn & _ & Pr).
  unfold presetInSync. rewrite Fd, Lb, Mn, Pr. intros M.
  rewrite IM in M.
  destruct (first_round_food_labor prev s M) as [F L]. fold s1 in F, L.
  assert (P : presetRates s1 = presetRates s)
    by (unfold presetRates; rewrite I1, I2; reflexivity).
  rewrite F, L, P.
  destruct (changedSyncPreset prev s) eqn:C; auto.
Qed.

(** X8.  The effects come to rest after two rounds of render and effects:
    further rounds change nothing, and a third round of effects on the
    state of the second leaves it as it is.  One round is not always enough:
    mounted on an address of Minato ward, the first round sets the area to
    [tokyo_core] and the rent rate to the suggestion of the previous area,
    0.0407; the second round sets the rent rate to the suggestion of
    [tokyo_core], 0.0949. *)
Theorem X8_effects_settle_in_two_rounds :
  (forall (n : nat) (prev : option State) (s : State),
     settle (S (S n)) prev s = settle 2 prev s
     /\ runEffects (Some (settle 1 prev s)) (settle 2 prev s)
        = settle 2 prev s)
  /\ (let s := setAddress (utf16 "東京都港区芝公園") initialState in
      area (settle 1 None s) = tokyo_core
      /\ rentRate (settle 1 None s) = 0.040680473372781065
      /\ rentRate (settle 2 None s) = 0.094921104536489151).
Proof.
  split.
  - intros n prev s. split; [apply settle_stable|].
    cbn [settle]. apply runEffects_sameDeps, second_round.
  - cbv zeta. repeat split; vm_compute; reflexivity.
Qed.

(** ** The area and the rates after mount and after an event *)

Lemma settle_2_area prev s :
  area (settle 2 prev s) = area (runEffects prev s).
Proof.
  rewrite settle_2_eq.
  apply (later_round_cases _ (runEffects prev s)).
Qed.

(** X9.  At mount, with automatic detection on, the area is the one the
    resolver finds in the address, and the area of the start when it finds
    none or when detection is off.  After the address is changed to another
    string the same holds of the new address.  After the user picks an area
    by hand, the area is the one picked, whatever the address says. *)
Theorem X9_area_follows_address :
  forall s : State,
    area (mount s)
    = (if autoDetectArea s
       then match detectAreaFromAddress (address s) with
            | Some k => k
            | None => area s
            end
       else area s)
    /\ (forall a : jsstring,
          jsstring_eqb (address s) a = false ->
          area (after (setAddress a) s)
          = if autoDetectArea s
            then match detectAreaFromAddress a with
                 | Some k => k
                 | None => area s
                 end
            else area s)
    /\ (forall k : AreaKey, area (after (setArea k) s) = k).
Proof.
  intros s. split; [|split].
  - unfold mount. rewrite settle_2_area, first_round_area. reflexivity.
  - intros a Ha. unfold after. rewrite settle_2_area, first_round_area.
    unfold changedDetectArea. cbn [address setAddress autoDetectArea area].
    rewrite Ha. reflexivity.
  - intros k. unfold after. rewrite settle_2_area, first_round_area.
    unfold changedDetectArea. cbn [address setArea autoDetectArea area].
    rewrite jsstring_eqb_refl, eqb_reflx. reflexivity.
Qed.

(** X9 when an address of Kyoto is typed into the component at rest. *)
Lemma X9_area_follows_address_witness :
  area (after (setAddress (utf16 "京都府京都市中京区")) (mount initialState))
  = kyoto_core.
Proof.
  exact (proj1 (proj2 (X9_area_follows_address (mount initialState)))
           (utf16 "京都府京都市中京区") eq_refl).
Defined.

(** Mount leaves the rates in sync. *)
Lemma presetInSync_mount s : presetInSync (mount s).
Proof. apply presetInSync_settle. intros _ C. discriminate. Qed.

Lemma rentInSync_mount s : rentInSync (mount s).
Proof. apply rentInSync_settle. intros _ _ _ C. discriminate. Qed.

(** X10.  After mount, on any initial state, the rates agree with the
    automatic sources: with manual rates off the food and labor rates are
    the preset's, stored and in force; the rent rate is the suggestion when
    automatic rent is on and the suggestion is positive, and the preset's
    rent rate when automatic rent is off. *)
Theorem X10_mount_syncs_auto_mode :
  forall s : State,
    presetInSync (mount s) /\ rentInSync (mount s)
    /\ (manualRates s = false -> autoSetRentRate s = false ->
        rentRate (mount s) = rent (presetRates s))
    /\ (manualRates s = false ->
        food (effectiveRates (mount s)) = food (presetRates s)
        /\ labor (effectiveRates (mount s)) = labor (presetRates s)).
Proof.
  intros s.
  pose proof (presetInSync_mount s) as P.
  split; [exact P|]. split; [|split].
  - apply rentInSync_mount.
  - intros M A. unfold mount. rewrite settle_2_eq.
    set (s1 := runEffects None s).
    pose proof (runEffects_inputs None s) as I. cbv zeta in I. fold s1 in I.
    destruct I as (_ & _ & _ & _ & _ & _ & _ & _ & _ & _ & _ & _ & _ & _ & _
                   & _ & _ & IA & IM).
    assert (E : effectAutoRent s1 s1 = s1).
    { unfold effectAutoRent. rewrite IA, A. reflexivity. }
    rewrite E. destruct (changedAutoRent (Some s) s1);
      unfold s1; rewrite (first_round_rent_off None s M A); reflexivity.
  - intros M.
    destruct (settle_inputs 2 None s)
      as (_ & I1 & I2 & _ & _ & _ & _ & _ & _ & _ & _ & _ & _ & _ & _ & _ & _
          & _ & IM).
    fold (mount s) in I1, I2, IM.
    assert (M' : manualRates (mount s) = false) by congruence.
    destruct (P M') as [F L].
    assert (Pr : presetRates (mount s) = presetRates s)
      by (unfold presetRates; rewrite I1, I2; reflexivity).
    unfold effectiveRates, normalized, normalized_of.
    cbn [food labor Normalized.food Normalized.labor].
    rewrite F, L, Pr. unfold presetRates.
    destruct (industry s), (scenario s); split; reflexivity.
Qed.

(** X10 on the initial inputs with an address of Minato ward. *)
Lemma X10_mount_syncs_auto_mode_witness :
  let m := mount (setAddress (utf16 "東京都港区芝公園") initialState) in
  foodRate m = 0.30 /\ laborRate m = 0.30
  /\ suggested m = 0.094921104536489151
  /\ rentRate m = 0.094921104536489151.
Proof.
  pose proof (X10_mount_syncs_auto_mode
                (setAddress (utf16 "東京都港区芝公園") initialState)) as H.
  destruct H as (P & R & _).
  cbv zeta.
  split; [exact (proj1 (P eq_refl))|]. split; [exact (proj2 (P eq_refl))|].
  split; [reflexivity|].
  exact (R eq_refl eq_refl eq_refl).
Defined.

(** X11.  An event that does not write the rent rate keeps it in sync:
    if the rent rate followed the suggestion before the event, it follows
    the suggestion of the new inputs once the effects have come to rest,
    whatever else the event changes (seats, occupancy, area, address,
    industry, the two switches, ...). *)
Theorem X11_events_keep_rent_in_sync :
  forall (ev : State -> State) (s : State),
    rentRate (ev s) = rentRate s ->
    rentInSync s ->
    rentInSync (after ev s).
Proof.
  intros ev s Hr Hs. unfold after. apply rentInSync_settle.
  intros M A P C. apply orb_false_iff in C. destruct C as [_ C].
  unfold changedAutoRent in C. apply negb_false_iff in C.
  apply andb_true_iff in C. destruct C as [C O].
  apply andb_true_iff in C. destruct C as [CA CM].
  apply eqb_prop in CA, CM. apply Object_is_eq in O.
  fold (suggested s) in O. fold (suggested (ev s)) in O.
  rewrite Hr, <- O. apply Hs; congruence.
Qed.

(** X11 when the occupancy is set to 45% in the component at rest. *)
Lemma X11_events_keep_rent_in_sync_witness :
  let s := after (setOccupancy 0.45) (mount initialState) in
  suggested s = 0.05876068376068376 /\ rentRate s = 0.05876068376068376.
Proof.
  cbv zeta. split; [reflexivity|].
  refine (X11_events_keep_rent_in_sync (setOccupancy 0.45)
            (mount initialState) eq_refl _ eq_refl eq_refl eq_refl).
  apply rentInSync_mount.
Defined.

(** X12.  An event that writes neither the manual switch nor the food and
    labor rates keeps these two rates in sync: if they were the preset's
    before the event, then, once the effects have come to rest, they are the
    preset's of the industry and scenario the event leaves. *)
Theorem X12_events_keep_preset_in_sync :
  forall (ev : State -> State) (s : State),
    manualRates (ev s) = manualRates s ->
    foodRate (ev s) = foodRate s -> laborRate (ev s) = laborRate s ->
    presetInSync s ->
    presetInSync (after ev s)
    /\ (manualRates s = false ->
        foodRate (after ev s) = food (presetRates (ev s))
        /\ laborRate (after ev s) = labor (presetRates (ev s))).
Proof.
  intros ev s Hm Hf Hl Hs.
  assert (P : presetInSync (after ev s)).
  { unfold after. apply presetInSync_settle.
    intros M C. unfold changedSyncPreset in C. apply negb_false_iff in C.
    apply andb_true_iff in C. destruct C as [CI CS].
    assert (EI : industry s = industry (ev s))
      by (destruct (industry s), (industry (ev s)); simpl in CI;
          congruence).
    assert (ES : scenario s = scenario (ev s))
      by (destruct (scenario s), (scenario (ev s)); simpl in CS;
          congruence).
    rewrite Hf, Hl. unfold presetRates. rewrite <- EI, <- ES.
    apply Hs. congruence. }
  split; [exact P|]. intros M.
  destruct (settle_inputs 2 (Some s) (ev s))
    as (_ & I1 & I2 & _ & _ & _ & _ & _ & _ & _ & _ & _ & _ & _ & _ & _ & _
        & _ & IM).
  fold (after ev s) in I1, I2, IM.
  assert (Pr : presetRates (after ev s) = presetRates (ev s))
    by (unfold presetRates; rewrite I1, I2; reflexivity).
  rewrite <- Pr. apply P. congruence.
Qed.

(** X12 when the industry is set to yakiniku in the component at rest. *)
Lemma X12_events_keep_preset_in_sync_witness :
  let s := after (setIndustry yakiniku) (mount initialState) in
  foodRate s = 0.38 /\ laborRate s = 0.28.
Proof.
  exact (proj2 (X12_events_keep_preset_in_sync (setIndustry yakiniku)
                  (mount initialState) eq_refl eq_refl eq_refl
                  (presetInSync_mount initialState))
           eq_refl).
Defined.

(** ** The reset button *)

Lemma reset_round1 s :
  runEffects (Some s) (resetInputs s)
  = let c2 := changedSyncPreset (Some s) (resetInputs s) in
    let c3 := changedAutoRent (Some s) (resetInputs s) in
    setRentRate (if c2 || c3 then 0.040680473372781065 else rentRate s)
      (setLaborRate (if c2 then 0.30 else laborRate s)
         (setFoodRate (if c2 then 0.30 else foodRate s) (resetInputs s))).
Proof.
  cbv zeta. unfold runEffects.
  destruct (changedDetectArea (Some s) (resetInputs s));
    destruct (changedSyncPreset (Some s) (resetInputs s));
    destruct (changedAutoRent (Some s) (resetInputs s));
    reflexivity.
Qed.

Lemma reset_rest s :
  after resetInputs s = runEffects (Some s) (resetInputs s).
Proof.
  unfold after. rewrite settle_2_eq, reset_round1. cbv zeta.
  destruct (changedSyncPreset (Some s) (resetInputs s));
    destruct (changedAutoRent (Some s) (resetInputs s));
    reflexivity.
Qed.

(** X13.  The reset button, pressed in any state [s], once the effects
    have come to rest: every state cell but the three rates has its initial
    value (the area included).  The food and labor rates become 0.30 when
    the industry or the scenario was not the default one, and otherwise
    stay what they were; the rent rate becomes the suggestion of the initial
    inputs, 0.0407, unless the industry, the scenario, the two switches and
    the suggestion were already the initial ones, in which case it stays.
    Hence the button restores the freshly mounted state whenever the
    industry or scenario was not the default, and whenever manual rates
    were off and the rates in sync. *)
Theorem X13_reset_button :
  forall s : State,
    let r := after resetInputs s in
    let sameKind := IndustryKey_eqb (industry s) izakaya
                    && ScenarioKey_eqb (scenario s) standard in
    let sameRent := Bool.eqb (autoSetRentRate s) true
                    && Bool.eqb (manualRates s) false
                    && Object_is (suggested s) 0.040680473372781065 in
    r = setRentRate (rentRate r)
          (setLaborRate (laborRate r) (setFoodRate (foodRate r) initialState))
    /\ foodRate r = (if sameKind then foodRate s else 0.30)
    /\ laborRate r = (if sameKind then laborRate s else 0.30)
    /\ rentRate r = (if sameKind && sameRent then rentRate s
                     else 0.040680473372781065)
    /\ (sameKind = false -> r = mount initialState)
    /\ (manualRates s = false -> presetInSync s -> rentInSync s ->
        r = mount initialState).
Proof.
  intros s r sameKind sameRent.
  assert (R : r = setRentRate (if sameKind && sameRent then rentRate s
                               else 0.040680473372781065)
                    (setLaborRate (if sameKind then laborRate s else 0.30)
                       (setFoodRate (if sameKind then foodRate s else 0.30)
                          initialState))).
  { unfold r. rewrite reset_rest, reset_round1. cbv zeta.
    unfold changedSyncPreset, changedAutoRent.
    fold (suggested s). fold (suggested (resetInputs s)).
    replace (suggested (resetInputs s)) with 0.040680473372781065
      by reflexivity.
    cbn [industry scenario autoSetRentRate manualRates resetInputs].
    fold sameKind. fold sameRent.
    destruct sameKind, sameRent; reflexivity. }
  split; [rewrite R; reflexivity|].
  split; [rewrite R; reflexivity|].
  split; [rewrite R; reflexivity|].
  split; [rewrite R; reflexivity|].
  split.
  - intros K. rewrite R, K. reflexivity.
  - intros M P I. rewrite R.
    destruct (P M) as [F L].
    assert (EF : (if sameKind then foodRate s else 0.30) = 0.30).
    { destruct sameKind eqn:K; [|reflexivity].
      unfold sameKind in K. apply andb_true_iff in K. destruct K as [K1 K2].
      rewrite F. unfold presetRates.
      destruct (industry s); try discriminate;
        destruct (scenario s); try discriminate; reflexivity. }
    assert (EL : (if sameKind then laborRate s else 0.30) = 0.30).
    { destruct sameKind eqn:K; [|reflexivity].
      unfold sameKind in K. apply andb_true_iff in K. destruct K as [K1 K2].
      rewrite L. unfold presetRates.
      destruct (industry s); try discriminate;
        destruct (scenario s); try discriminate; reflexivity. }
    assert (ER : (if sameKind && sameRent then rentRate s
                  else 0.040680473372781065) = 0.040680473372781065).
    { destruct (sameKind && sameRent) eqn:K; [|reflexivity].
      apply andb_true_iff in K. destruct K as [_ K].
      unfold sameRent in K. apply andb_true_iff in K. destruct K as [K O].
      apply andb_true_iff in K. destruct K as [KA _].
      apply eqb_prop in KA. apply Object_is_eq in O.
      rewrite (I M KA); [exact O|]. rewrite O. reflexivity. }
    rewrite EF, EL, ER. reflexivity.
Qed.

(** X13 after the industry and the scenario were changed: the button gives
    the freshly mounted state back. *)
Lemma X13_reset_button_witness :
  after resetInputs
    (after (setScenario high) (after (setIndustry ramen) (mount initialState)))
  = mount initialState.
Proof.
  exact (proj1 (proj2 (proj2 (proj2 (proj2
           (X13_reset_button
              (after (setScenario high)
                 (after (setIndustry ramen) (mount initialState))))))))
           eq_refl).
Defined.
